(** * kube2iam: the role store (package [store], store.go)

    The store keeps three Go maps behind one [sync.RWMutex]:
    pod IP -> role, pod IP -> namespace, and namespace -> compiled role
    patterns.  Every method is embedded as a computation that threads the
    [Store] and records, in program order, the mutex calls, the map accesses
    and the log calls it performs. *)

From Stdlib Require Import Ascii.
From stdpp Require Import base option list strings gmap fin_maps.

(** ** Collaborators of the store *)

(** Modelled from the spec: package [iam] is not part of the sources at hand.
    Its [Client.RoleARN] is the identity normalizer, a total function from a
    role name to the fully qualified role identifier. *)
Class IamClient := {
  Client : Type;
  RoleARN : Client → string → string;
}.

(** Go's [regexp] package, as far as the store uses it: [regexp.Compile]
    (an error is [None]) and the methods [String] and [MatchString] of a
    compiled expression.  [String] returns the source text the expression
    was compiled from. *)
Class RegexpPackage := {
  Regexp : Type;
  Compile : string → option Regexp;
  Regexp_String : Regexp → string;
  MatchString : Regexp → string → bool;
  Compile_String : ∀ expr re, Compile expr = Some re → Regexp_String re = expr;
}.

(** The part of [v1.Pod] the store reads: [pod.Status.PodIP] and
    [pod.GetNamespace()]. *)
Record PodStatus := { PodIP : string }.
Record Pod := { Namespace : string; Status : PodStatus }.

Definition GetNamespace (pod : Pod) : string := Namespace pod.

(** The value of Go's [error] built by [fmt.Errorf]. *)
Inductive error := Errorf (msg : string).

(** ** Observable steps of a method *)

Inductive Mapping := M_rolesByIP | M_rolesRegexpByNamespace | M_namespaceByIP.

Inductive Event :=
| EvRLock
| EvRUnlock
| EvLock
| EvUnlock
| EvRead (m : Mapping)
| EvWrite (m : Mapping)
| EvWarnf (msg : string)
| EvDebugf (msg : string).

Section store.
Context `{IamClient, RegexpPackage}.

(** [type Store struct].  The [mutex] field carries no data of its own: its
    calls appear as [EvRLock], [EvRUnlock], [EvLock] and [EvUnlock]. *)
Record Store := mkStore {
  defaultRole : string;
  IamRoleKey : string;
  NamespaceKey : string;
  namespaceRestriction : bool;
  rolesByIP : gmap string string;
  rolesRegexpByNamespace : gmap string (list Regexp);
  namespaceByIP : gmap string string;
  iam : Client;
}.

Definition set_rolesByIP (f : gmap string string → gmap string string)
    (s : Store) : Store :=
  mkStore (defaultRole s) (IamRoleKey s) (NamespaceKey s)
    (namespaceRestriction s) (f (rolesByIP s)) (rolesRegexpByNamespace s)
    (namespaceByIP s) (iam s).

Definition set_rolesRegexpByNamespace
    (f : gmap string (list Regexp) → gmap string (list Regexp))
    (s : Store) : Store :=
  mkStore (defaultRole s) (IamRoleKey s) (NamespaceKey s)
    (namespaceRestriction s) (rolesByIP s) (f (rolesRegexpByNamespace s))
    (namespaceByIP s) (iam s).

Definition set_namespaceByIP (f : gmap string string → gmap string string)
    (s : Store) : Store :=
  mkStore (defaultRole s) (IamRoleKey s) (NamespaceKey s)
    (namespaceRestriction s) (rolesByIP s) (rolesRegexpByNamespace s)
    (f (namespaceByIP s)) (iam s).

(** *** The method monad: store in, value, store and trace out *)

Definition op (A : Type) : Type := Store → A * Store * list Event.

Definition ret {A} (a : A) : op A := λ s, (a, s, []).

Definition bind {A B} (m : op A) (k : A → op B) : op B :=
  λ s, let '(a, s1, t1) := m s in
       let '(b, s2, t2) := k a s1 in
       (b, s2, t1 ++ t2).

Definition emit (e : Event) : op unit := λ s, (tt, s, [e]).
Definition gets {A} (f : Store → A) : op A := λ s, (f s, s, []).
Definition modify (f : Store → Store) : op unit := λ s, (tt, f s, []).

Definition result {A} (m : op A) (s : Store) : A := (m s).1.1.
Definition final {A} (m : op A) (s : Store) : Store := (m s).1.2.
Definition trace {A} (m : op A) (s : Store) : list Event := (m s).2.

Notation "x ←← m ; k" := (bind m (λ x, k))
  (at level 20, m at level 100, k at level 200, only parsing, right associativity).
Notation "m ;;; k" := (bind m (λ _, k))
  (at level 100, k at level 200, only parsing, right associativity).

(** *** Map accesses.  A Go map read of a missing key gives the zero value:
    [""] for a string, the nil slice for [[]*regexp.Regexp]. *)

(** [role, ok := s.rolesByIP[IP]] *)
Definition rolesByIP_lookup (IP : string) : op (option string) :=
  emit (EvRead M_rolesByIP) ;;; gets (λ s, rolesByIP s !! IP).

(** [s.namespaceByIP[ip]] *)
Definition namespaceByIP_at (ip : string) : op string :=
  emit (EvRead M_namespaceByIP) ;;; gets (λ s, default "" (namespaceByIP s !! ip)).

(** [s.rolesRegexpByNamespace[namespace]] read without the map event. *)
Definition patterns (s : Store) (namespace : string) : list Regexp :=
  default [] (rolesRegexpByNamespace s !! namespace).

(** [s.rolesRegexpByNamespace[namespace]] *)
Definition rolesRegexpByNamespace_at (namespace : string) : op (list Regexp) :=
  emit (EvRead M_rolesRegexpByNamespace) ;;; gets (λ s, patterns s namespace).

(** *** [Get]: the iam role based on IP address.  [defer s.mutex.RUnlock()]
    runs after the result is computed. *)
Definition Get (IP : string) : op (string * option error) :=
  emit EvRLock ;;;
  r ←← rolesByIP_lookup IP ;
  res ←← match r with
         | Some role => ret (role, None)
         | None =>
             d ←← gets defaultRole ;
             if bool_decide (d ≠ "") then
               emit (EvWarnf ("Using fallback role for IP " +:+ IP)) ;;;
               ret (d, None)
             else
               ret ("", Some (Errorf ("Unable to find role for IP " +:+ IP)))
         end ;
  emit EvRUnlock ;;;
  ret res.

(** *** [AddRoleToIP] *)
Definition AddRoleToIP (pod : Pod) (role : string) : op unit :=
  emit EvLock ;;;
  emit (EvWrite M_rolesByIP) ;;;
  modify (set_rolesByIP (insert (PodIP (Status pod)) role)) ;;;
  emit EvUnlock.

(** *** [AddNamespaceToIP] *)
Definition AddNamespaceToIP (pod : Pod) : op unit :=
  let namespace := GetNamespace pod in
  emit EvLock ;;;
  emit (EvWrite M_namespaceByIP) ;;;
  modify (set_namespaceByIP (insert (PodIP (Status pod)) namespace)) ;;;
  emit EvUnlock.

(** *** [DeleteIP]: deletes the IP address from the cache.  Go's [delete]
    on a missing key does nothing. *)
Definition DeleteIP (ip : string) : op unit :=
  emit EvLock ;;;
  emit (EvWrite M_rolesByIP) ;;;
  modify (set_rolesByIP (delete ip)) ;;;
  emit (EvWrite M_namespaceByIP) ;;;
  modify (set_namespaceByIP (delete ip)) ;;;
  emit EvUnlock.

(** *** [AddRoleToNamespace]: takes a role name and adds it to our internal
    state. *)

(** The deduplication loop: [true] as soon as some [ar[i].String()] equals
    [regexpRoleARN] (the loop then sets [c = false] and breaks). *)
Fixpoint containsString (ar : list Regexp) (regexpRoleARN : string) : bool :=
  match ar with
  | [] => false
  | r :: ar' =>
      if bool_decide (Regexp_String r = regexpRoleARN) then true
      else containsString ar' regexpRoleARN
  end.

(** The map is read before [s.mutex.Lock()]; on a compile error the method
    logs and returns before the write ([None] below). *)
Definition AddRoleToNamespace (namespace regexpForRole : string) : op unit :=
  i ←← gets iam ;
  let regexpRoleARN := RoleARN i regexpForRole in
  ar ←← rolesRegexpByNamespace_at namespace ;
  let c := negb (containsString ar regexpRoleARN) in
  next ←← (if c then
             match Compile regexpRoleARN with
             | None =>
                 emit (EvDebugf ("Invalid regexp " +:+ regexpRoleARN +:+
                                 "  described on namespace:" +:+ namespace +:+
                                 " found.")) ;;;
                 ret None
             | Some re => ret (Some (ar ++ [re]))
             end
           else ret (Some ar)) ;
  match next with
  | None => ret tt
  | Some ar =>
      emit EvLock ;;;
      emit (EvWrite M_rolesRegexpByNamespace) ;;;
      modify (set_rolesRegexpByNamespace (insert namespace ar)) ;;;
      emit EvUnlock
  end.

(** *** [RemoveRoleFromNamespace]: takes a role and removes it from a
    namespace mapping. *)

(** The index at which the removal loop breaks: the first [i] with
    [ar[i].String() == regexpRoleARN]. *)
Fixpoint indexOfString (ar : list Regexp) (regexpRoleARN : string) : option nat :=
  match ar with
  | [] => None
  | r :: ar' =>
      if bool_decide (Regexp_String r = regexpRoleARN) then Some 0
      else S <$> indexOfString ar' regexpRoleARN
  end.

(** [append(ar[:i], ar[i+1:]...)].  The append reuses the backing array of
    [ar]; the only other slice over that array is the map entry, which the
    method overwrites with the result. *)
Definition removeAt (i : nat) (ar : list Regexp) : list Regexp :=
  take i ar ++ drop (S i) ar.

Definition RemoveRoleFromNamespace (namespace regexpForRole : string) : op unit :=
  i ←← gets iam ;
  let regexpRoleARN := RoleARN i regexpForRole in
  ar ←← rolesRegexpByNamespace_at namespace ;
  let ar := match indexOfString ar regexpRoleARN with
            | Some i => removeAt i ar
            | None => ar
            end in
  emit EvLock ;;;
  emit (EvWrite M_rolesRegexpByNamespace) ;;;
  modify (set_rolesRegexpByNamespace (insert namespace ar)) ;;;
  emit EvUnlock.

(** *** [DeleteNamespace]: removes all role mappings from a namespace. *)
Definition DeleteNamespace (namespace : string) : op unit :=
  emit EvLock ;;;
  emit (EvWrite M_rolesRegexpByNamespace) ;;;
  modify (set_rolesRegexpByNamespace (delete namespace)) ;;;
  emit EvUnlock.

(** *** [checkRoleForNamespace]: checks the 'database' for a role allowed
    in a namespace.  [firstMatch] is the range loop: it stops at the first
    [r] with [r.MatchString(role)]. *)
Fixpoint firstMatch (ar : list Regexp) (role : string) : option Regexp :=
  match ar with
  | [] => None
  | r :: ar' => if MatchString r role then Some r else firstMatch ar' role
  end.

Definition checkRoleForNamespace (role namespace : string) : op bool :=
  ar ←← rolesRegexpByNamespace_at namespace ;
  match firstMatch ar role with
  | Some r =>
      emit (EvDebugf ("Role:" +:+ role +:+ " matching regexp " +:+
                      Regexp_String r +:+ " on namespace:" +:+ namespace +:+
                      " found.")) ;;;
      ret true
  | None =>
      emit (EvWarnf ("Role:" +:+ role +:+ " on namespace:" +:+ namespace +:+
                     " not found.")) ;;;
      ret false
  end.

(** *** [CheckNamespaceRestriction]: checks the namespace restrictions for
    the current pod. *)
Definition CheckNamespaceRestriction (role ip : string) : op (bool * string) :=
  ns ←← namespaceByIP_at ip ;
  restricted ←← gets namespaceRestriction ;
  if negb restricted then ret (true, ns)
  else
    d ←← gets defaultRole ;
    i ←← gets iam ;
    if bool_decide (role = RoleARN i d) then ret (true, ns)
    else
      ok ←← checkRoleForNamespace role ns ;
      ret (ok, ns).

(** *** The dumps.  [DumpRolesByIP] and [DumpNamespaceByIP] return the map
    held by the store (the map itself, not a copy); its contents at the time
    of the call are the value below. *)
Definition DumpRolesByIP : op (gmap string string) :=
  emit (EvRead M_rolesByIP) ;;; gets rolesByIP.

Definition DumpNamespaceByIP : op (gmap string string) :=
  emit (EvRead M_namespaceByIP) ;;; gets namespaceByIP.

(** [make([]string, n)]: a slice of length [n] holding the zero value. *)
Definition make_strings (n : nat) : list string := replicate n "".

(** The inner loop of [DumpRolesByNamespace]:
    [listOfRoles = append(listOfRoles, roleRegexp.String())]. *)
Definition appendStrings (listOfRoles : list string) (listOfRegexp : list Regexp)
    : list string :=
  fold_left (λ listOfRoles roleRegexp, listOfRoles ++ [Regexp_String roleRegexp])
    listOfRegexp listOfRoles.

(** The outer loop ranges over the map and fills a fresh map, one key per
    iteration, so the iteration order does not show in the result. *)
Definition DumpRolesByNamespace : op (gmap string (list string)) :=
  emit (EvRead M_rolesRegexpByNamespace) ;;;
  m ←← gets rolesRegexpByNamespace ;
  ret (map_imap (λ ns listOfRegexp,
         let listOfRoles := make_strings (length (default [] (m !! ns))) in
         Some (appendStrings listOfRoles listOfRegexp)) m).

(** *** [NewStore] *)
Definition NewStore (key defaultRole : string) (namespaceRestriction : bool)
    (namespaceKey : string) (iamInstance : Client) : Store :=
  {| defaultRole := defaultRole;
     IamRoleKey := key;
     NamespaceKey := namespaceKey;
     namespaceRestriction := namespaceRestriction;
     rolesByIP := ∅;
     rolesRegexpByNamespace := ∅;
     namespaceByIP := ∅;
     iam := iamInstance |}.

(** ** Stores the program can build: [NewStore] followed by any sequence of
    the mutating methods (the other methods leave the store as it is). *)
Inductive reachable : Store → Prop :=
| reachable_NewStore key d restricted nsKey i :
    reachable (NewStore key d restricted nsKey i)
| reachable_AddRoleToIP s pod role :
    reachable s → reachable (final (AddRoleToIP pod role) s)
| reachable_AddNamespaceToIP s pod :
    reachable s → reachable (final (AddNamespaceToIP pod) s)
| reachable_DeleteIP s ip :
    reachable s → reachable (final (DeleteIP ip) s)
| reachable_AddRoleToNamespace s namespace regexpForRole :
    reachable s → reachable (final (AddRoleToNamespace namespace regexpForRole) s)
| reachable_RemoveRoleFromNamespace s namespace regexpForRole :
    reachable s →
    reachable (final (RemoveRoleFromNamespace namespace regexpForRole) s)
| reachable_DeleteNamespace s namespace :
    reachable s → reachable (final (DeleteNamespace namespace) s).

(** The canonical strings of a namespace's patterns, in slice order. *)
Definition patternStrings (s : Store) (namespace : string) : list string :=
  Regexp_String <$> patterns s namespace.

(** The fields fixed by [NewStore]; no method assigns them. *)
Definition settings (s : Store) : string * string * string * bool * Client :=
  (defaultRole s, IamRoleKey s, NamespaceKey s, namespaceRestriction s, iam s).

(** How many entries of a list of canonical strings equal [x]. *)
Definition occurrences (x : string) (l : list string) : nat :=
  length (filter (λ y, y = x) l).

(** A slice of patterns as the methods build it: no canonical string twice,
    and every entry is what [Compile] returns for its own string. *)
Definition slice_ok (ar : list Regexp) : Prop :=
  NoDup (Regexp_String <$> ar)
  ∧ Forall (λ r, Compile (Regexp_String r) = Some r) ar.

Definition patterns_ok (s : Store) : Prop :=
  ∀ namespace ar, rolesRegexpByNamespace s !! namespace = Some ar → slice_ok ar.

End store.

(** ** Lock discipline of a trace *)

Inductive Held := NotHeld | HeldShared | HeldExclusive.

(** [guarded h tr]: along [tr], started with the mutex in mode [h] for the
    caller, every map read happens while the caller holds the mutex (shared
    or exclusive) and every map write while it holds it exclusively. *)
Fixpoint guarded (h : Held) (tr : list Event) : bool :=
  match tr with
  | [] => true
  | EvRLock :: tr' => guarded HeldShared tr'
  | EvLock :: tr' => guarded HeldExclusive tr'
  | EvRUnlock :: tr' | EvUnlock :: tr' => guarded NotHeld tr'
  | EvRead _ :: tr' =>
      match h with NotHeld => false | _ => guarded h tr' end
  | EvWrite _ :: tr' =>
      match h with HeldExclusive => guarded h tr' | _ => false end
  | EvWarnf _ :: tr' | EvDebugf _ :: tr' => guarded h tr'
  end.


(** ** An instance of the collaborators, for closed examples

    The general statements below hold for every [IamClient] and every
    [RegexpPackage].  Closed examples need one of each; this one covers the
    part of Go's regular-expression syntax made of literals, [.], the
    postfix operators (with their lazy forms), alternation and grouping.
    Escapes, classes, counted repetition and anchors are left out: [compile]
    rejects them, which Go does not. *)
Module fragment.

(** Operators as in Go's [regexp/syntax]. *)
Inductive Syntax :=
| OpNoMatch
| OpEmptyMatch
| OpLiteral (c : ascii)
| OpAnyCharNotNL
| OpAnyChar
| OpConcat (a b : Syntax)
| OpAlternate (a b : Syntax)
| OpStar (a : Syntax)
| OpPlus (a : Syntax)
| OpQuest (a : Syntax).

(** One open group of the parser: the alternatives already finished and the
    factors of the current one, both with the latest first. *)
Record Frame := mkFrame { alts : list Syntax; factors : list Syntax }.

Definition emptyFrame : Frame := mkFrame [] [].

Definition concatOf (factors : list Syntax) : Syntax :=
  fold_left (λ acc x, OpConcat x acc) factors OpEmptyMatch.

Definition alternateOf (alts : list Syntax) : Syntax :=
  fold_left (λ acc x, OpAlternate x acc) alts OpNoMatch.

Definition closeFrame (f : Frame) : Syntax :=
  alternateOf (concatOf (factors f) :: alts f).

Definition push (x : Syntax) (f : Frame) : Frame :=
  mkFrame (alts f) (x :: factors f).

(** What the previous character left behind: nothing to repeat, an operand,
    a repetition (only the lazy marker [?] may follow), or a lazy marker. *)
Inductive Prev := AtStart | AfterOperand | AfterRepeat | AfterLazy.

Definition isRepeat (c : ascii) : option (Syntax → Syntax) :=
  if Ascii.eqb c "*"%char then Some OpStar
  else if Ascii.eqb c "+"%char then Some OpPlus
  else if Ascii.eqb c "?"%char then Some OpQuest
  else None.

Definition unsupported (c : ascii) : bool :=
  existsb (Ascii.eqb c) ["\"; "["; "]"; "{"; "}"; "^"; "$"]%char.

Fixpoint parse (prev : Prev) (cur : Frame) (outer : list Frame)
    (input : list ascii) : option Syntax :=
  match input with
  | [] =>
      match outer with
      | [] => Some (closeFrame cur)
      | _ :: _ => None                      (* missing closing parenthesis *)
      end
  | c :: rest =>
      if Ascii.eqb c "("%char then parse AtStart emptyFrame (cur :: outer) rest
      else if Ascii.eqb c ")"%char then
        match outer with
        | [] => None                        (* unexpected parenthesis *)
        | f :: outer' => parse AfterOperand (push (closeFrame cur) f) outer' rest
        end
      else if Ascii.eqb c "|"%char then
        parse AtStart (mkFrame (concatOf (factors cur) :: alts cur) []) outer rest
      else
        match isRepeat c with
        | Some rep =>
            match prev, factors cur with
            | AfterOperand, x :: xs =>
                parse AfterRepeat (mkFrame (alts cur) (rep x :: xs)) outer rest
            | AfterRepeat, _ =>
                if Ascii.eqb c "?"%char then parse AfterLazy cur outer rest
                else None                   (* invalid nested repetition *)
            | _, _ => None                  (* missing argument to repetition *)
            end
        | None =>
            if Ascii.eqb c "."%char then
              parse AfterOperand (push OpAnyCharNotNL cur) outer rest
            else if unsupported c then None
            else parse AfterOperand (push (OpLiteral c) cur) outer rest
        end
  end.

(** Matching by derivatives. *)
Fixpoint nullable (r : Syntax) : bool :=
  match r with
  | OpNoMatch | OpLiteral _ | OpAnyCharNotNL | OpAnyChar => false
  | OpEmptyMatch | OpStar _ | OpQuest _ => true
  | OpConcat a b => nullable a && nullable b
  | OpAlternate a b => nullable a || nullable b
  | OpPlus a => nullable a
  end.

Definition concat (a b : Syntax) : Syntax :=
  match a, b with
  | OpNoMatch, _ | _, OpNoMatch => OpNoMatch
  | OpEmptyMatch, _ => b
  | _, _ => OpConcat a b
  end.

Definition alternate (a b : Syntax) : Syntax :=
  match a, b with
  | OpNoMatch, _ => b
  | _, OpNoMatch => a
  | _, _ => OpAlternate a b
  end.

Fixpoint deriv (c : ascii) (r : Syntax) : Syntax :=
  match r with
  | OpNoMatch | OpEmptyMatch => OpNoMatch
  | OpLiteral c' => if Ascii.eqb c c' then OpEmptyMatch else OpNoMatch
  | OpAnyCharNotNL => if Ascii.eqb c "010"%char then OpNoMatch else OpEmptyMatch
  | OpAnyChar => OpEmptyMatch
  | OpConcat a b =>
      alternate (concat (deriv c a) b)
                (if nullable a then deriv c b else OpNoMatch)
  | OpAlternate a b => alternate (deriv c a) (deriv c b)
  | OpStar a | OpPlus a => concat (deriv c a) (OpStar a)
  | OpQuest a => deriv c a
  end.

Definition matchAll (r : Syntax) (input : list ascii) : bool :=
  nullable (fold_left (λ r c, deriv c r) input r).

(** A compiled expression: its source text and its syntax tree. *)
Record Compiled := mkCompiled { expr : string; prog : Syntax }.

Definition compile (expr : string) : option Compiled :=
  mkCompiled expr <$> parse AtStart emptyFrame [] (String.list_ascii_of_string expr).

(** [MatchString] reports whether the string contains any match. *)
Definition matchString (re : Compiled) (s : string) : bool :=
  matchAll (OpConcat (OpStar OpAnyChar) (OpConcat (prog re) (OpStar OpAnyChar)))
           (String.list_ascii_of_string s).

#[export] Instance regexpPackage : RegexpPackage.
Proof.
  refine {| Regexp := Compiled; Compile := compile; Regexp_String := expr;
            MatchString := matchString |}.
  unfold compile. intros e re Hc.
  destruct (parse _ _ _ _); simplify_eq/=; done.
Defined.

(** The [iam.Client] of the examples: a name that is already an ARN is kept,
    any other name is appended to the account's base ARN. *)
Record BaseClient := mkBaseClient { BaseARN : string }.

Definition roleARN (iam : BaseClient) (role : string) : string :=
  if String.prefix "arn:" role then role else BaseARN iam +:+ role.

#[export] Instance iamClient : IamClient :=
  {| Client := BaseClient; RoleARN := roleARN |}.

End fragment.

(** ** Example stores *)
Module examples.
Import fragment.

Definition account : BaseClient := mkBaseClient "arn:aws:iam::123456789012:role/".

(** Restriction on, no default role. *)
Definition store0 : Store :=
  NewStore "iam.amazonaws.com/role" "" true "iam.amazonaws.com/allowed-roles" account.

(** Restriction on, default role [default]. *)
Definition storeD : Store :=
  NewStore "iam.amazonaws.com/role" "default" true "iam.amazonaws.com/allowed-roles"
    account.

Definition podA1 : Pod :=
  {| Namespace := "payments"; Status := {| PodIP := "10.0.0.1" |} |}.

Definition writer : string := "arn:aws:iam::123456789012:role/payments-writer".
Definition otherTeam : string := "arn:aws:iam::123456789012:role/other-team".

(** Namespace [payments] is granted [payments-.*]. *)
Definition granted (s : Store) : Store :=
  final (AddRoleToNamespace "payments" "payments-.*") s.

(** ... and the pod at 10.0.0.1 is recorded with its role and namespace. *)
Definition scenario (s : Store) : Store :=
  final (AddNamespaceToIP podA1) (final (AddRoleToIP podA1 writer) (granted s)).

End examples.

(** * Properties of the store *)

Ltac run_op :=
  unfold result, final, trace, Get, AddRoleToIP, AddNamespaceToIP, DeleteIP,
    AddRoleToNamespace, RemoveRoleFromNamespace, DeleteNamespace,
    CheckNamespaceRestriction, checkRoleForNamespace, DumpRolesByIP,
    DumpNamespaceByIP, DumpRolesByNamespace, rolesByIP_lookup,
    namespaceByIP_at, rolesRegexpByNamespace_at, bind, ret, emit, gets, modify;
  simpl.

(** Closes [Forall (λ e, e ∉ [EvRLock; EvLock]) tr] on an explicit trace. *)
Ltac lacks_locking :=
  repeat (apply Forall_cons; split;
          [let Hin := fresh in
           intros Hin;
           repeat (apply elem_of_cons in Hin as [?|Hin]; [done|]);
           by apply elem_of_nil in Hin|]);
  apply Forall_nil_2.

Section store_facts.
Context `{IamClient, RegexpPackage}.
Implicit Types (s : Store) (ar : list Regexp) (IP ip role namespace : string).

(** *** Final stores of the methods, as plain record updates *)

Lemma final_AddRoleToIP s pod role :
  final (AddRoleToIP pod role) s
  = set_rolesByIP (insert (PodIP (Status pod)) role) s.
Proof. reflexivity. Qed.

Lemma final_AddNamespaceToIP s pod :
  final (AddNamespaceToIP pod) s
  = set_namespaceByIP (insert (PodIP (Status pod)) (Namespace pod)) s.
Proof. reflexivity. Qed.

Lemma final_DeleteIP s ip :
  final (DeleteIP ip) s = set_namespaceByIP (delete ip) (set_rolesByIP (delete ip) s).
Proof. reflexivity. Qed.

Lemma final_DeleteNamespace s namespace :
  final (DeleteNamespace namespace) s
  = set_rolesRegexpByNamespace (delete namespace) s.
Proof. reflexivity. Qed.

Lemma final_Get s IP : final (Get IP) s = s.
Proof.
  run_op. destruct (rolesByIP s !! IP); simpl; [done|].
  case_bool_decide; done.
Qed.

Lemma final_CheckNamespaceRestriction s role ip :
  final (CheckNamespaceRestriction role ip) s = s.
Proof.
  run_op. destruct (namespaceRestriction s); simpl; [|done].
  case_bool_decide; simpl; [done|]. by destruct (firstMatch _ _).
Qed.

Lemma final_dumps s :
  final DumpRolesByIP s = s ∧ final DumpRolesByNamespace s = s
  ∧ final DumpNamespaceByIP s = s.
Proof. done. Qed.

Lemma final_AddRoleToNamespace s namespace regexpForRole :
  final (AddRoleToNamespace namespace regexpForRole) s
  = let x := RoleARN (iam s) regexpForRole in
    if containsString (patterns s namespace) x
    then set_rolesRegexpByNamespace (insert namespace (patterns s namespace)) s
    else match Compile x with
         | Some re =>
             set_rolesRegexpByNamespace
               (insert namespace (patterns s namespace ++ [re])) s
         | None => s
         end.
Proof.
  run_op. destruct (containsString _ _); simpl; [done|].
  destruct (Compile _); done.
Qed.

Lemma final_RemoveRoleFromNamespace s namespace regexpForRole :
  final (RemoveRoleFromNamespace namespace regexpForRole) s
  = set_rolesRegexpByNamespace
      (insert namespace
         match indexOfString (patterns s namespace) (RoleARN (iam s) regexpForRole) with
         | Some i => removeAt i (patterns s namespace)
         | None => patterns s namespace
         end) s.
Proof. reflexivity. Qed.

Lemma Store_eq s1 s2 :
  defaultRole s1 = defaultRole s2 → IamRoleKey s1 = IamRoleKey s2 →
  NamespaceKey s1 = NamespaceKey s2 →
  namespaceRestriction s1 = namespaceRestriction s2 →
  rolesByIP s1 = rolesByIP s2 →
  rolesRegexpByNamespace s1 = rolesRegexpByNamespace s2 →
  namespaceByIP s1 = namespaceByIP s2 → iam s1 = iam s2 → s1 = s2.
Proof. destruct s1, s2; simpl; congruence. Qed.

(** Writing back the slice a key already holds changes nothing. *)
Lemma write_back s namespace ar :
  rolesRegexpByNamespace s !! namespace = Some ar →
  set_rolesRegexpByNamespace (insert namespace ar) s = s.
Proof.
  intros Hl. apply Store_eq; simpl; try done. by apply insert_id.
Qed.

(** *** The scanning loops *)

Lemma containsString_elem_of ar x :
  containsString ar x = true ↔ x ∈ Regexp_String <$> ar.
Proof.
  induction ar as [|r ar IH]; simpl.
  - split; [done|]. by intros ?%elem_of_nil.
  - rewrite elem_of_cons. case_bool_decide as Hr.
    + split; [by left|done].
    + rewrite IH. split; [by right|]. by intros [->|?].
Qed.

Lemma containsString_false ar x :
  containsString ar x = false ↔ x ∉ Regexp_String <$> ar.
Proof.
  rewrite <-containsString_elem_of. by destruct (containsString ar x).
Qed.

Lemma indexOfString_None ar x :
  indexOfString ar x = None ↔ x ∉ Regexp_String <$> ar.
Proof.
  induction ar as [|r ar IH]; simpl.
  - split; [|done]. by intros _ ?%elem_of_nil.
  - rewrite not_elem_of_cons. case_bool_decide as Hr.
    + split; [done|]. by intros [[] _].
    + rewrite fmap_None, IH. split; [|by intros [_ ?]].
      intros ?. split; [congruence|done].
Qed.

(** The removal loop breaks at the first slot holding the string, and the
    slice without that slot keeps every other pattern in place. *)
Lemma indexOfString_first l1 r l2 x :
  Regexp_String r = x → x ∉ Regexp_String <$> l1 →
  indexOfString (l1 ++ r :: l2) x = Some (length l1)
  ∧ removeAt (length l1) (l1 ++ r :: l2) = l1 ++ l2.
Proof.
  intros Hr Hl1. split.
  - induction l1 as [|r1 l1 IH]; simpl.
    + by rewrite bool_decide_eq_true_2.
    + rewrite fmap_cons in Hl1. apply not_elem_of_cons in Hl1 as [Hne Hl1].
      rewrite bool_decide_eq_false_2 by done. by rewrite IH.
  - unfold removeAt. rewrite take_app_length.
    rewrite drop_app_ge by lia.
    by replace (S (length l1) - length l1) with 1 by lia.
Qed.

Lemma indexOfString_Some ar x i :
  indexOfString ar x = Some i →
  ∃ l1 r l2, ar = l1 ++ r :: l2 ∧ length l1 = i ∧ Regexp_String r = x
             ∧ x ∉ Regexp_String <$> l1.
Proof.
  revert i. induction ar as [|r ar IH]; simpl; intros i Hi; [done|].
  case_bool_decide as Hr.
  - simplify_eq. exists [], r, ar. split_and!; try done. by intros ?%elem_of_nil.
  - apply fmap_Some in Hi as (j & Hj & ->).
    destruct (IH _ Hj) as (l1 & r' & l2 & Har & Hlen & Hr' & Hl1).
    exists (r :: l1), r', l2. subst ar j. split_and!; try done.
    rewrite fmap_cons. apply not_elem_of_cons. split; [congruence|done].
Qed.

Lemma firstMatch_Some ar role r :
  firstMatch ar role = Some r ↔
  ∃ l1 l2, ar = l1 ++ r :: l2 ∧ MatchString r role = true
           ∧ Forall (λ r', MatchString r' role = false) l1.
Proof.
  revert r. induction ar as [|r0 ar IH]; simpl; intros r.
  - split; [done|]. intros (l1 & l2 & Heq & _). by destruct l1.
  - destruct (MatchString r0 role) eqn:Hm.
    + split.
      * intros [= <-]. exists [], ar. by split_and!.
      * intros (l1 & l2 & Heq & Hr & Hl1). destruct l1 as [|r1 l1].
        -- by simplify_eq/=.
        -- simplify_eq/=. apply Forall_cons in Hl1 as [? _]. congruence.
    + rewrite IH. split.
      * intros (l1 & l2 & -> & Hr & Hl1). exists (r0 :: l1), l2.
        split_and!; [done|done|]. by constructor.
      * intros (l1 & l2 & Heq & Hr & Hl1). destruct l1 as [|r1 l1].
        -- simplify_eq/=. congruence.
        -- simplify_eq/=. apply Forall_cons in Hl1 as [_ Hl1]. by exists l1, l2.
Qed.

Lemma firstMatch_None ar role :
  firstMatch ar role = None ↔ Forall (λ r, MatchString r role = false) ar.
Proof.
  induction ar as [|r0 ar IH]; simpl.
  - split; [by constructor|done].
  - rewrite Forall_cons. destruct (MatchString r0 role).
    + split; [done|]. by intros [? _].
    + rewrite IH. split; [done|]. by intros [_ ?].
Qed.

End store_facts.

Section store_claims.
Context `{IamClient, RegexpPackage}.
Implicit Types (s : Store) (ar : list Regexp) (IP ip role namespace : string).

(** C1. [CheckNamespaceRestriction role ip] returns as namespace the one
    recorded for [ip], or the empty string when [ip] is unknown.  It permits
    every role when the restriction is off.  When it is on, it permits the
    normalized default role; any other role is permitted exactly when some
    pattern of the namespace matches it, and the scan stops at the first
    match in slice order (the one the debug log names).  A namespace with
    no patterns, recorded or not, permits nothing else. *)
Theorem CheckNamespaceRestriction_decision s role ip :
  (result (CheckNamespaceRestriction role ip) s).2
    = default "" (namespaceByIP s !! ip)
  ∧ (namespaceRestriction s = false →
       (result (CheckNamespaceRestriction role ip) s).1 = true)
  ∧ (namespaceRestriction s = true → role = RoleARN (iam s) (defaultRole s) →
       (result (CheckNamespaceRestriction role ip) s).1 = true)
  ∧ (namespaceRestriction s = true → role ≠ RoleARN (iam s) (defaultRole s) →
       ((result (CheckNamespaceRestriction role ip) s).1 = true ↔
          ∃ r, r ∈ patterns s (default "" (namespaceByIP s !! ip))
               ∧ MatchString r role = true)
       ∧ (∀ l1 r l2,
            patterns s (default "" (namespaceByIP s !! ip)) = l1 ++ r :: l2 →
            MatchString r role = true →
            Forall (λ r', MatchString r' role = false) l1 →
            EvDebugf ("Role:" +:+ role +:+ " matching regexp " +:+
                      Regexp_String r +:+ " on namespace:" +:+
                      default "" (namespaceByIP s !! ip) +:+ " found.")
              ∈ trace (CheckNamespaceRestriction role ip) s)
       ∧ (patterns s (default "" (namespaceByIP s !! ip)) = [] →
            (result (CheckNamespaceRestriction role ip) s).1 = false)).
Proof.
  set (ns := default "" (namespaceByIP s !! ip)).
  split_and!.
  - run_op. fold ns. destruct (namespaceRestriction s); simpl; [|done].
    case_bool_decide; simpl; [done|].
    by destruct (firstMatch (patterns s ns) role).
  - intros Hoff. run_op. by rewrite Hoff.
  - intros Hon Hrole. run_op. rewrite Hon. simpl.
    by rewrite bool_decide_eq_true_2.
  - intros Hon Hrole. run_op. fold ns. rewrite Hon. simpl.
    rewrite bool_decide_eq_false_2 by done. simpl.
    split_and!.
    + destruct (firstMatch (patterns s ns) role) as [r|] eqn:Hf; simpl.
      * split; [intros _|done].
        apply firstMatch_Some in Hf as (l1 & l2 & Hp & Hr & _).
        exists r. split; [|done]. rewrite Hp. set_solver.
      * split; [done|]. intros (r & Hin & Hr).
        apply firstMatch_None in Hf. rewrite Forall_forall in Hf.
        specialize (Hf r Hin). congruence.
    + intros l1 r l2 Hp Hr Hl1.
      assert (firstMatch (patterns s ns) role = Some r) as ->.
      { apply firstMatch_Some. by exists l1, l2. }
      simpl. set_solver.
    + intros ->. done.
Qed.

(** C2. For an address with no recorded role, [Get] returns the default
    role without an error, and logs the fallback warning, when a default
    role is configured; it returns the not-found error otherwise.  [Get]
    fails exactly when the address has no role and no default role is
    configured, hence never for a recorded address. *)
Theorem Get_fallback_or_not_found s IP :
  (rolesByIP s !! IP = None → defaultRole s ≠ "" →
     result (Get IP) s = (defaultRole s, None)
     ∧ trace (Get IP) s
       = [EvRLock; EvRead M_rolesByIP;
          EvWarnf ("Using fallback role for IP " +:+ IP); EvRUnlock])
  ∧ (rolesByIP s !! IP = None → defaultRole s = "" →
     result (Get IP) s
     = ("", Some (Errorf ("Unable to find role for IP " +:+ IP))))
  ∧ (is_Some (result (Get IP) s).2 ↔
     rolesByIP s !! IP = None ∧ defaultRole s = "").
Proof.
  split_and!.
  - intros Hno Hd. run_op. rewrite Hno. simpl.
    by rewrite bool_decide_eq_true_2.
  - intros Hno Hd. run_op. rewrite Hno. simpl.
    by rewrite bool_decide_eq_false_2 by (by intros []).
  - run_op. destruct (rolesByIP s !! IP) as [role|]; simpl.
    + split; [by intros [? ?]|by intros [? _]].
    + case_bool_decide as Hd; simpl.
      * split; [by intros [? ?]|]. by intros [_ ?].
      * split; [intros _|by eexists]. split; [done|].
        by destruct (decide (defaultRole s = "")).
Qed.

(** C3. Right after [AddRoleToIP pod role], [Get] on the pod's IP returns
    [role] and no error, whatever was recorded for that IP before. *)
Theorem Get_after_AddRoleToIP s pod role :
  result (Get (PodIP (Status pod))) (final (AddRoleToIP pod role) s)
  = (role, None).
Proof.
  run_op. by rewrite lookup_insert_eq.
Qed.

(** C4. [DeleteIP ip] deletes [ip] from [rolesByIP] and from
    [namespaceByIP]; a map that does not hold [ip] is left as it is (and the
    store as a whole when neither holds it); afterwards [Get ip] with no
    default role fails with the not-found error. *)
Theorem DeleteIP_forgets s ip :
  rolesByIP (final (DeleteIP ip) s) = delete ip (rolesByIP s)
  ∧ namespaceByIP (final (DeleteIP ip) s) = delete ip (namespaceByIP s)
  ∧ rolesByIP (final (DeleteIP ip) s) !! ip = None
  ∧ namespaceByIP (final (DeleteIP ip) s) !! ip = None
  ∧ (rolesByIP s !! ip = None →
       rolesByIP (final (DeleteIP ip) s) = rolesByIP s)
  ∧ (namespaceByIP s !! ip = None →
       namespaceByIP (final (DeleteIP ip) s) = namespaceByIP s)
  ∧ (rolesByIP s !! ip = None → namespaceByIP s !! ip = None →
       final (DeleteIP ip) s = s)
  ∧ (defaultRole s = "" →
       result (Get ip) (final (DeleteIP ip) s)
       = ("", Some (Errorf ("Unable to find role for IP " +:+ ip)))).
Proof.
  rewrite final_DeleteIP. simpl. split_and!; try done.
  - apply lookup_delete_eq.
  - apply lookup_delete_eq.
  - apply delete_id.
  - apply delete_id.
  - intros Hr Hn. apply Store_eq; simpl; try done; by apply delete_id.
  - intros Hd. run_op. rewrite lookup_delete_eq. simpl.
    by rewrite bool_decide_eq_false_2 by (by intros []).
Qed.

(** C10. [AddRoleToIP] changes [rolesByIP] at the pod's IP only,
    [AddNamespaceToIP] changes [namespaceByIP] at the pod's IP only, and
    [DeleteIP ip] changes those two maps at [ip] only.  Each leaves the
    entries of every other address, the other maps, every namespace's
    patterns and the settings as they were. *)
Theorem AddRoleToIP_AddNamespaceToIP_DeleteIP_frame s pod role ip :
  ((∀ ip', ip' ≠ PodIP (Status pod) →
      rolesByIP (final (AddRoleToIP pod role) s) !! ip' = rolesByIP s !! ip')
   ∧ namespaceByIP (final (AddRoleToIP pod role) s) = namespaceByIP s
   ∧ rolesRegexpByNamespace (final (AddRoleToIP pod role) s)
     = rolesRegexpByNamespace s
   ∧ settings (final (AddRoleToIP pod role) s) = settings s)
  ∧ ((∀ ip', ip' ≠ PodIP (Status pod) →
        namespaceByIP (final (AddNamespaceToIP pod) s) !! ip'
        = namespaceByIP s !! ip')
     ∧ rolesByIP (final (AddNamespaceToIP pod) s) = rolesByIP s
     ∧ rolesRegexpByNamespace (final (AddNamespaceToIP pod) s)
       = rolesRegexpByNamespace s
     ∧ settings (final (AddNamespaceToIP pod) s) = settings s)
  ∧ ((∀ ip', ip' ≠ ip →
        rolesByIP (final (DeleteIP ip) s) !! ip' = rolesByIP s !! ip'
        ∧ namespaceByIP (final (DeleteIP ip) s) !! ip' = namespaceByIP s !! ip')
     ∧ rolesRegexpByNamespace (final (DeleteIP ip) s) = rolesRegexpByNamespace s
     ∧ settings (final (DeleteIP ip) s) = settings s).
Proof.
  rewrite final_AddRoleToIP, final_AddNamespaceToIP, final_DeleteIP.
  simpl. split_and!; try done.
  - intros ip' Hne. by rewrite lookup_insert_ne.
  - intros ip' Hne. by rewrite lookup_insert_ne.
  - intros ip' Hne. by rewrite !lookup_delete_ne.
Qed.

End store_claims.

Section pattern_invariant.
Context `{IamClient, RegexpPackage}.
Implicit Types (s : Store) (ar : list Regexp) (namespace x : string).

Lemma occurrences_absent x (l : list string) : x ∉ l → occurrences x l = 0.
Proof.
  unfold occurrences. induction l as [|y l IH]; [done|].
  intros [Hne Hl]%not_elem_of_cons.
  rewrite filter_cons_False by congruence. by apply IH.
Qed.

Lemma occurrences_NoDup x (l : list string) :
  NoDup l → x ∈ l → occurrences x l = 1.
Proof.
  unfold occurrences. induction l as [|y l IH]; [by intros _ ?%elem_of_nil|].
  intros [Hy Hl]%NoDup_cons Hin. destruct (decide (y = x)) as [->|Hne].
  - rewrite filter_cons_True by done. simpl. f_equal.
    by apply (occurrences_absent x l).
  - rewrite filter_cons_False by done. apply IH; [done|].
    apply elem_of_cons in Hin as [?|?]; [congruence|done].
Qed.

Lemma slice_ok_nil : slice_ok [].
Proof. split; [constructor|constructor]. Qed.

Lemma slice_ok_snoc ar x re :
  slice_ok ar → x ∉ Regexp_String <$> ar → Compile x = Some re →
  slice_ok (ar ++ [re]).
Proof.
  intros [Hnd Hc] Hx Hre. pose proof (Compile_String _ _ Hre) as Hs.
  split.
  - rewrite fmap_app. simpl. rewrite Hs. apply NoDup_app. split_and!.
    + done.
    + intros y Hy ->%list_elem_of_singleton. done.
    + apply NoDup_singleton.
  - apply Forall_app. split; [done|]. constructor; [|constructor].
    by rewrite Hs.
Qed.

Lemma slice_ok_remove l1 r l2 : slice_ok (l1 ++ r :: l2) → slice_ok (l1 ++ l2).
Proof.
  intros [Hnd Hc]. split.
  - rewrite fmap_app in *. rewrite fmap_cons in Hnd.
    apply NoDup_app in Hnd as (Hl1 & Hdisj & [_ Hl2]%NoDup_cons).
    apply NoDup_app. split_and!; [done| |done].
    intros y Hy Hy2. apply (Hdisj y Hy). by right.
  - apply Forall_app in Hc as [Hl1 [_ Hl2]%Forall_cons].
    by apply Forall_app.
Qed.

Lemma patterns_ok_slice s namespace :
  patterns_ok s → slice_ok (patterns s namespace).
Proof.
  intros Hok. unfold patterns.
  destruct (rolesRegexpByNamespace s !! namespace) as [ar|] eqn:Hl; simpl.
  - by eapply Hok.
  - apply slice_ok_nil.
Qed.

Lemma patterns_ok_insert s namespace ar :
  patterns_ok s → slice_ok ar →
  patterns_ok (set_rolesRegexpByNamespace (insert namespace ar) s).
Proof.
  intros Hok Har ns' ar'. simpl. rewrite lookup_insert.
  case_decide; [by intros [= <-]|]. apply Hok.
Qed.

Lemma patterns_ok_delete s namespace :
  patterns_ok s → patterns_ok (set_rolesRegexpByNamespace (delete namespace) s).
Proof.
  intros Hok ns' ar'. simpl. rewrite lookup_delete.
  case_decide; [done|]. apply Hok.
Qed.

Lemma patterns_ok_AddRoleToNamespace s namespace regexpForRole :
  patterns_ok s → patterns_ok (final (AddRoleToNamespace namespace regexpForRole) s).
Proof.
  intros Hok. rewrite final_AddRoleToNamespace. simpl.
  pose proof (patterns_ok_slice s namespace Hok) as Hsl.
  destruct (containsString _ _) eqn:Hc.
  - by apply patterns_ok_insert.
  - destruct (Compile _) as [re|] eqn:Hre; [|done].
    apply patterns_ok_insert; [done|].
    eapply slice_ok_snoc; [done| |done]. by apply containsString_false.
Qed.

Lemma patterns_ok_RemoveRoleFromNamespace s namespace regexpForRole :
  patterns_ok s →
  patterns_ok (final (RemoveRoleFromNamespace namespace regexpForRole) s).
Proof.
  intros Hok. rewrite final_RemoveRoleFromNamespace.
  pose proof (patterns_ok_slice s namespace Hok) as Hsl.
  apply patterns_ok_insert; [done|].
  destruct (indexOfString _ _) as [i|] eqn:Hi; [|done].
  apply indexOfString_Some in Hi as (l1 & r & l2 & Hp & <- & Hr & Hl1).
  rewrite Hp in *.
  rewrite (proj2 (indexOfString_first l1 r l2 _ Hr Hl1)).
  by eapply slice_ok_remove.
Qed.

(** Every store the program can build keeps its pattern slices in order. *)
Lemma reachable_patterns_ok s : reachable s → patterns_ok s.
Proof.
  induction 1 as [| | | | | |].
  - intros ns ar. simpl. by rewrite lookup_empty.
  - done.
  - done.
  - done.
  - by apply patterns_ok_AddRoleToNamespace.
  - by apply patterns_ok_RemoveRoleFromNamespace.
  - rewrite final_DeleteNamespace. by apply patterns_ok_delete.
Qed.

Lemma patterns_insert s namespace ar :
  patterns (set_rolesRegexpByNamespace (insert namespace ar) s) namespace = ar.
Proof. unfold patterns. simpl. by rewrite lookup_insert_eq. Qed.

Lemma patterns_nonempty_lookup s namespace :
  patterns s namespace ≠ [] →
  rolesRegexpByNamespace s !! namespace = Some (patterns s namespace).
Proof.
  unfold patterns. by destruct (rolesRegexpByNamespace s !! namespace).
Qed.

(** A new string that compiles goes to the end of the slice: the slice is in
    insertion order. *)
Lemma AddRoleToNamespace_appends s namespace regexpForRole re :
  RoleARN (iam s) regexpForRole ∉ patternStrings s namespace →
  Compile (RoleARN (iam s) regexpForRole) = Some re →
  patterns (final (AddRoleToNamespace namespace regexpForRole) s) namespace
  = patterns s namespace ++ [re].
Proof.
  intros Hout Hre. rewrite final_AddRoleToNamespace. simpl.
  rewrite (proj2 (containsString_false _ _) Hout), Hre.
  apply patterns_insert.
Qed.

(** A string found in the slice makes [AddRoleToNamespace] write the slice
    back as it is. *)
Lemma AddRoleToNamespace_present s namespace regexpForRole :
  RoleARN (iam s) regexpForRole ∈ patternStrings s namespace →
  final (AddRoleToNamespace namespace regexpForRole) s = s.
Proof.
  intros Hin. rewrite final_AddRoleToNamespace. simpl.
  rewrite (proj2 (containsString_elem_of _ _) Hin).
  apply write_back, patterns_nonempty_lookup.
  intros Hnil. unfold patternStrings in Hin. rewrite Hnil in Hin.
  by apply elem_of_nil in Hin.
Qed.

End pattern_invariant.

Section policy_claims.
Context `{IamClient, RegexpPackage}.
Implicit Types (s : Store) (ar : list Regexp) (namespace regexpForRole : string).

(** C5, as the code has it.  On a store the program can build,
    [AddRoleToNamespace] called twice with the same arguments leaves the
    store as the first call left it, and a pattern whose normalized string is
    already in the namespace's slice leaves the store as it is.  After the
    call the slice holds the normalized string exactly once when that string
    compiles, and not at all when it does not compile (the store is then
    unchanged). *)
Theorem AddRoleToNamespace_twice s namespace regexpForRole :
  reachable s →
  final (AddRoleToNamespace namespace regexpForRole)
    (final (AddRoleToNamespace namespace regexpForRole) s)
  = final (AddRoleToNamespace namespace regexpForRole) s
  ∧ (RoleARN (iam s) regexpForRole ∈ patternStrings s namespace →
       final (AddRoleToNamespace namespace regexpForRole) s = s)
  ∧ occurrences (RoleARN (iam s) regexpForRole)
      (patternStrings (final (AddRoleToNamespace namespace regexpForRole) s)
         namespace)
    = match Compile (RoleARN (iam s) regexpForRole) with
      | Some _ => 1
      | None => 0
      end
  ∧ (Compile (RoleARN (iam s) regexpForRole) = None →
       final (AddRoleToNamespace namespace regexpForRole) s = s).
Proof.
  intros Hreach. pose proof (reachable_patterns_ok s Hreach) as Hok.
  destruct (patterns_ok_slice s namespace Hok) as [Hnd Hcomp].
  set (x := RoleARN (iam s) regexpForRole).
  destruct (decide (x ∈ patternStrings s namespace)) as [Hin|Hout].
  - (* already granted: both calls write the slice back *)
    pose proof (AddRoleToNamespace_present s namespace regexpForRole Hin) as Hs.
    rewrite !Hs. split_and!; try done.
    + rewrite (occurrences_NoDup x (patternStrings s namespace) Hnd Hin).
      apply list_elem_of_fmap in Hin as (r & Hx & Hr).
      rewrite Forall_forall in Hcomp. specialize (Hcomp r Hr).
      rewrite Hx. by rewrite Hcomp.
  - destruct (Compile x) as [re|] eqn:Hre.
    + (* first call appends, second call finds the string *)
      assert (final (AddRoleToNamespace namespace regexpForRole) s
              = set_rolesRegexpByNamespace
                  (insert namespace (patterns s namespace ++ [re])) s) as Hs1.
      { rewrite final_AddRoleToNamespace. simpl. fold x.
        rewrite (proj2 (containsString_false _ _) Hout). by rewrite Hre. }
      pose proof (Compile_String _ _ Hre) as Hstr.
      assert (x ∈ patternStrings
                    (final (AddRoleToNamespace namespace regexpForRole) s)
                    namespace) as Hin1.
      { rewrite Hs1. unfold patternStrings. rewrite patterns_insert.
        rewrite fmap_app. simpl. rewrite Hstr. set_solver. }
      split_and!; try done.
      * apply AddRoleToNamespace_present. by rewrite Hs1 in *.
      * apply occurrences_NoDup; [|done].
        apply (patterns_ok_slice _ namespace).
        by apply patterns_ok_AddRoleToNamespace.
    + (* the grant is dropped both times *)
      assert (final (AddRoleToNamespace namespace regexpForRole) s = s) as Hs.
      { rewrite final_AddRoleToNamespace. simpl. fold x.
        rewrite (proj2 (containsString_false _ _) Hout). by rewrite Hre. }
      rewrite !Hs. split_and!; try done.
      by apply occurrences_absent.
Qed.

(** C6. When the normalized pattern does not compile, [AddRoleToNamespace]
    leaves the store exactly as it was: no namespace gains an entry or a
    pattern.  The method returns nothing; when the string is not already in
    the slice, all it does besides reading the slice is log the failure. *)
Theorem AddRoleToNamespace_invalid_regexp s namespace regexpForRole :
  Compile (RoleARN (iam s) regexpForRole) = None →
  final (AddRoleToNamespace namespace regexpForRole) s = s
  ∧ (RoleARN (iam s) regexpForRole ∉ patternStrings s namespace →
       trace (AddRoleToNamespace namespace regexpForRole) s
       = [EvRead M_rolesRegexpByNamespace;
          EvDebugf ("Invalid regexp " +:+ RoleARN (iam s) regexpForRole +:+
                    "  described on namespace:" +:+ namespace +:+ " found.")]).
Proof.
  intros Hre. split.
  - destruct (decide (RoleARN (iam s) regexpForRole ∈ patternStrings s namespace))
      as [Hin|Hout].
    + by apply AddRoleToNamespace_present.
    + rewrite final_AddRoleToNamespace. simpl.
      rewrite (proj2 (containsString_false _ _) Hout). by rewrite Hre.
  - intros Hout. run_op.
    rewrite (proj2 (containsString_false _ _) Hout). simpl. by rewrite Hre.
Qed.

(** C7, as the code has it.  [RemoveRoleFromNamespace] touches only the
    entry of its namespace.  When the normalized string is in the slice, the
    first pattern with that string is dropped and all others keep their
    order.  When it is not, the slice is what it was; the store is unchanged
    if the namespace has an entry, and a namespace without an entry gains
    one holding the empty slice. *)
Theorem RemoveRoleFromNamespace_first_match s namespace regexpForRole :
  (∀ namespace', namespace' ≠ namespace →
     rolesRegexpByNamespace
       (final (RemoveRoleFromNamespace namespace regexpForRole) s) !! namespace'
     = rolesRegexpByNamespace s !! namespace')
  ∧ rolesByIP (final (RemoveRoleFromNamespace namespace regexpForRole) s)
    = rolesByIP s
  ∧ namespaceByIP (final (RemoveRoleFromNamespace namespace regexpForRole) s)
    = namespaceByIP s
  ∧ (RoleARN (iam s) regexpForRole ∈ patternStrings s namespace →
       ∃ l1 r l2,
         patterns s namespace = l1 ++ r :: l2
         ∧ Regexp_String r = RoleARN (iam s) regexpForRole
         ∧ (RoleARN (iam s) regexpForRole ∉ Regexp_String <$> l1)
         ∧ patterns (final (RemoveRoleFromNamespace namespace regexpForRole) s)
             namespace
           = l1 ++ l2)
  ∧ (RoleARN (iam s) regexpForRole ∉ patternStrings s namespace →
       patterns (final (RemoveRoleFromNamespace namespace regexpForRole) s)
         namespace
       = patterns s namespace
       ∧ (is_Some (rolesRegexpByNamespace s !! namespace) →
            final (RemoveRoleFromNamespace namespace regexpForRole) s = s)
       ∧ (rolesRegexpByNamespace s !! namespace = None →
            rolesRegexpByNamespace
              (final (RemoveRoleFromNamespace namespace regexpForRole) s)
            = <[namespace := []]> (rolesRegexpByNamespace s))).
Proof.
  rewrite final_RemoveRoleFromNamespace.
  set (x := RoleARN (iam s) regexpForRole). split_and!; try done.
  - intros ns' Hne. simpl. by rewrite lookup_insert_ne.
  - intros Hin.
    destruct (indexOfString (patterns s namespace) x) as [i|] eqn:Hi.
    + apply indexOfString_Some in Hi as (l1 & r & l2 & Hp & <- & Hr & Hl1).
      exists l1, r, l2. split_and!; try done.
      rewrite patterns_insert, Hp.
      apply (indexOfString_first l1 r l2 x Hr Hl1).
    + by apply indexOfString_None in Hi.
  - intros Hout. apply indexOfString_None in Hout. rewrite Hout.
    split_and!.
    + apply patterns_insert.
    + intros [ar Har]. apply write_back. unfold patterns. by rewrite Har.
    + intros Hnone. simpl. unfold patterns. by rewrite Hnone.
Qed.

(** *** The dumps *)

Lemma appendStrings_app (listOfRoles : list string) ar :
  appendStrings listOfRoles ar = listOfRoles ++ (Regexp_String <$> ar).
Proof.
  unfold appendStrings. revert listOfRoles.
  induction ar as [|r ar IH]; intros l; simpl.
  - by rewrite app_nil_r.
  - rewrite IH. by rewrite <-app_assoc.
Qed.

Lemma DumpRolesByIP_contents s : result DumpRolesByIP s = rolesByIP s.
Proof. reflexivity. Qed.

Lemma DumpNamespaceByIP_contents s : result DumpNamespaceByIP s = namespaceByIP s.
Proof. reflexivity. Qed.

(** Each namespace of the policy map is dumped as one empty string per
    pattern, followed by the patterns' strings. *)
Lemma DumpRolesByNamespace_contents s namespace :
  result DumpRolesByNamespace s !! namespace
  = (λ ar, replicate (length ar) "" ++ (Regexp_String <$> ar))
      <$> rolesRegexpByNamespace s !! namespace.
Proof.
  run_op. rewrite map_lookup_imap.
  destruct (rolesRegexpByNamespace s !! namespace) as [ar|] eqn:Har; simpl; [|done].
  by rewrite appendStrings_app.
Qed.

(** *** Lock discipline *)

Lemma guarded_Get s IP : guarded NotHeld (trace (Get IP) s) = true.
Proof.
  run_op. destruct (rolesByIP s !! IP); simpl; [done|].
  by case_bool_decide.
Qed.

Lemma guarded_writers s pod role ip namespace :
  guarded NotHeld (trace (AddRoleToIP pod role) s) = true
  ∧ guarded NotHeld (trace (AddNamespaceToIP pod) s) = true
  ∧ guarded NotHeld (trace (DeleteIP ip) s) = true
  ∧ guarded NotHeld (trace (DeleteNamespace namespace) s) = true.
Proof. by split_and!. Qed.

(** C9, on the code.  [CheckNamespaceRestriction] reads [namespaceByIP] (and,
    through [checkRoleForNamespace], [rolesRegexpByNamespace]) without ever
    taking the mutex, and so do the three dumps, for every store and every
    argument; [Get], next to them, reads under [RLock]. *)
Theorem CheckNamespaceRestriction_reads_without_lock s role ip :
  guarded NotHeld (trace (CheckNamespaceRestriction role ip) s) = false
  ∧ (∀ namespace,
       guarded NotHeld (trace (checkRoleForNamespace role namespace) s) = false)
  ∧ guarded NotHeld (trace DumpRolesByIP s) = false
  ∧ guarded NotHeld (trace DumpRolesByNamespace s) = false
  ∧ guarded NotHeld (trace DumpNamespaceByIP s) = false
  ∧ Forall (λ e, e ∉ [EvRLock; EvLock])
      (trace (CheckNamespaceRestriction role ip) s)
  ∧ guarded NotHeld (trace (Get ip) s) = true.
Proof.
  split_and!; try done.
  - run_op. destruct (namespaceRestriction s); simpl; [|done].
    case_bool_decide; simpl; [done|]. by destruct (firstMatch _ _).
  - intros namespace. run_op. by destruct (firstMatch _ _).
  - run_op. destruct (namespaceRestriction s); simpl.
    + case_bool_decide; simpl.
      * lacks_locking.
      * destruct (firstMatch _ _); simpl; lacks_locking.
    + lacks_locking.
  - apply guarded_Get.
Qed.

End policy_claims.

(** * Further properties of the store *)

Section store_extras.
Context `{IamClient, RegexpPackage}.
Implicit Types (s : Store) (ar : list Regexp) (IP ip role namespace : string).

(** *** What the readers compute, in one equation each *)

Lemma result_Get s IP :
  result (Get IP) s
  = match rolesByIP s !! IP with
    | Some role => (role, None)
    | None =>
        if bool_decide (defaultRole s ≠ "") then (defaultRole s, None)
        else ("", Some (Errorf ("Unable to find role for IP " +:+ IP)))
    end.
Proof.
  run_op. destruct (rolesByIP s !! IP); simpl; [done|]. by case_bool_decide.
Qed.

Lemma result_checkRoleForNamespace s role namespace :
  result (checkRoleForNamespace role namespace) s = true ↔
  ∃ r, r ∈ patterns s namespace ∧ MatchString r role = true.
Proof.
  run_op. destruct (firstMatch (patterns s namespace) role) as [r|] eqn:Hf; simpl.
  - split; [intros _|done].
    apply firstMatch_Some in Hf as (l1 & l2 & Hp & Hr & _).
    exists r. split; [|done]. rewrite Hp.
    apply elem_of_app. right. by left.
  - split; [done|]. intros (r & Hin & Hr).
    apply firstMatch_None in Hf. rewrite Forall_forall in Hf.
    specialize (Hf r Hin). congruence.
Qed.

Lemma result_CheckNamespaceRestriction s role ip :
  result (CheckNamespaceRestriction role ip) s
  = (negb (namespaceRestriction s)
     || bool_decide (role = RoleARN (iam s) (defaultRole s))
     || result (checkRoleForNamespace role (default "" (namespaceByIP s !! ip))) s,
     default "" (namespaceByIP s !! ip)).
Proof.
  run_op. destruct (namespaceRestriction s); simpl; [|done].
  case_bool_decide; simpl; [done|]. by destruct (firstMatch _ _).
Qed.

Lemma final_checkRoleForNamespace s role namespace :
  final (checkRoleForNamespace role namespace) s = s.
Proof. run_op. by destruct (firstMatch _ _). Qed.

(** X1. A store fresh from [NewStore] holds nothing: [Get] gives the default
    role for every IP when one is configured and the error otherwise; with
    the restriction on, [CheckNamespaceRestriction] permits a role exactly
    when it is the normalized default role and reports the empty namespace;
    the three dumps are empty. *)
Theorem NewStore_holds_nothing key d restricted nsKey i IP role :
  (d ≠ "" → result (Get IP) (NewStore key d restricted nsKey i) = (d, None))
  ∧ (d = "" →
       result (Get IP) (NewStore key d restricted nsKey i)
       = ("", Some (Errorf ("Unable to find role for IP " +:+ IP))))
  ∧ result (CheckNamespaceRestriction role IP) (NewStore key d true nsKey i)
    = (bool_decide (role = RoleARN i d), "")
  ∧ result (CheckNamespaceRestriction role IP) (NewStore key d false nsKey i)
    = (true, "")
  ∧ result DumpRolesByIP (NewStore key d restricted nsKey i) = ∅
  ∧ result DumpRolesByNamespace (NewStore key d restricted nsKey i) = ∅
  ∧ result DumpNamespaceByIP (NewStore key d restricted nsKey i) = ∅.
Proof.
  split_and!; try done.
  - intros Hd. rewrite result_Get. simpl. rewrite lookup_empty.
    by rewrite bool_decide_eq_true_2.
  - intros ->. rewrite result_Get. simpl. by rewrite lookup_empty.
  - rewrite result_CheckNamespaceRestriction. simpl. rewrite lookup_empty. simpl.
    f_equal. run_op. unfold patterns. simpl. rewrite lookup_empty. simpl.
    by rewrite orb_false_r.
Qed.

(** X2. [DeleteNamespace] drops the whole slice of its namespace: afterwards
    [checkRoleForNamespace] refuses every role there and the namespace is gone
    from the dump.  Every other namespace, both IP maps and the settings are
    untouched, and deleting a namespace that has no entry changes nothing. *)
Theorem DeleteNamespace_drops_policy s namespace :
  patterns (final (DeleteNamespace namespace) s) namespace = []
  ∧ (∀ role,
       result (checkRoleForNamespace role namespace)
         (final (DeleteNamespace namespace) s) = false)
  ∧ result DumpRolesByNamespace (final (DeleteNamespace namespace) s) !! namespace
    = None
  ∧ (∀ namespace', namespace' ≠ namespace →
       rolesRegexpByNamespace (final (DeleteNamespace namespace) s) !! namespace'
       = rolesRegexpByNamespace s !! namespace')
  ∧ rolesByIP (final (DeleteNamespace namespace) s) = rolesByIP s
  ∧ namespaceByIP (final (DeleteNamespace namespace) s) = namespaceByIP s
  ∧ settings (final (DeleteNamespace namespace) s) = settings s
  ∧ (rolesRegexpByNamespace s !! namespace = None →
       final (DeleteNamespace namespace) s = s).
Proof.
  rewrite final_DeleteNamespace.
  assert (patterns (set_rolesRegexpByNamespace (delete namespace) s) namespace = [])
    as Hnil.
  { unfold patterns. simpl. by rewrite lookup_delete_eq. }
  split_and!; try done.
  - intros role. run_op. unfold patterns. simpl. by rewrite lookup_delete_eq.
  - rewrite DumpRolesByNamespace_contents. simpl. by rewrite lookup_delete_eq.
  - intros ns' Hne. simpl. by rewrite lookup_delete_ne.
  - intros Hnone. apply Store_eq; simpl; try done. by apply delete_id.
Qed.

(** X3. The namespace [CheckNamespaceRestriction] reports for an IP is the one
    last recorded by [AddNamespaceToIP] for a pod with that IP, whatever the
    role asked about, and it is the empty string once [DeleteIP] has run. *)
Theorem namespace_reported_for_IP s pod role ip :
  (result (CheckNamespaceRestriction role (PodIP (Status pod)))
     (final (AddNamespaceToIP pod) s)).2
  = Namespace pod
  ∧ (result (CheckNamespaceRestriction role ip) (final (DeleteIP ip) s)).2 = "".
Proof.
  rewrite !result_CheckNamespaceRestriction. simpl. split.
  - by rewrite lookup_insert_eq.
  - by rewrite lookup_delete_eq.
Qed.

(** X4. No reader changes the store: after [Get], [CheckNamespaceRestriction],
    [checkRoleForNamespace] or a dump, on any branch, the store is the one
    before the call. *)
Theorem readers_leave_store s IP role namespace :
  final (Get IP) s = s
  ∧ final (CheckNamespaceRestriction role IP) s = s
  ∧ final (checkRoleForNamespace role namespace) s = s
  ∧ final DumpRolesByIP s = s
  ∧ final DumpRolesByNamespace s = s
  ∧ final DumpNamespaceByIP s = s.
Proof.
  split_and!; try done.
  - apply final_Get.
  - apply final_CheckNamespaceRestriction.
  - apply final_checkRoleForNamespace.
Qed.


End store_extras.

Section policy_extras.
Context `{IamClient, RegexpPackage}.
Implicit Types (s : Store) (ar : list Regexp) (ip role namespace regexpForRole : string).

(** *** What the policy methods do to the slices *)

Lemma removeAt_sublist i ar : removeAt i ar `sublist_of` ar.
Proof. unfold removeAt. rewrite <-delete_take_drop. apply sublist_delete. Qed.

Lemma removeAt_length i ar : length ar ≤ S (length (removeAt i ar)).
Proof.
  unfold removeAt. rewrite length_app, length_take, length_drop. lia.
Qed.

Lemma AddRoleToNamespace_other_fields s namespace regexpForRole :
  rolesByIP (final (AddRoleToNamespace namespace regexpForRole) s) = rolesByIP s
  ∧ namespaceByIP (final (AddRoleToNamespace namespace regexpForRole) s)
    = namespaceByIP s
  ∧ settings (final (AddRoleToNamespace namespace regexpForRole) s) = settings s.
Proof.
  rewrite final_AddRoleToNamespace. simpl.
  destruct (containsString _ _); [done|]. by destruct (Compile _).
Qed.

Lemma AddRoleToNamespace_iam s namespace regexpForRole :
  iam (final (AddRoleToNamespace namespace regexpForRole) s) = iam s.
Proof.
  destruct (AddRoleToNamespace_other_fields s namespace regexpForRole)
    as (_ & _ & Hs).
  unfold settings in Hs. congruence.
Qed.

Lemma AddRoleToNamespace_other_namespace s namespace regexpForRole namespace' :
  namespace' ≠ namespace →
  rolesRegexpByNamespace (final (AddRoleToNamespace namespace regexpForRole) s)
    !! namespace'
  = rolesRegexpByNamespace s !! namespace'.
Proof.
  intros Hne. rewrite final_AddRoleToNamespace. simpl.
  destruct (containsString _ _); simpl; [by rewrite lookup_insert_ne|].
  destruct (Compile _); simpl; [by rewrite lookup_insert_ne|done].
Qed.

Lemma AddRoleToNamespace_same_namespace s namespace regexpForRole :
  ∃ suffix,
    patterns (final (AddRoleToNamespace namespace regexpForRole) s) namespace
    = patterns s namespace ++ suffix
    ∧ length suffix ≤ 1.
Proof.
  rewrite final_AddRoleToNamespace. simpl.
  destruct (containsString _ _).
  - exists []. rewrite patterns_insert, app_nil_r. split; [done|simpl; lia].
  - destruct (Compile _) as [re|].
    + exists [re]. rewrite patterns_insert. split; [done|simpl; lia].
    + exists []. rewrite app_nil_r. split; [done|simpl; lia].
Qed.

Lemma RemoveRoleFromNamespace_other_namespace s namespace regexpForRole namespace' :
  namespace' ≠ namespace →
  rolesRegexpByNamespace (final (RemoveRoleFromNamespace namespace regexpForRole) s)
    !! namespace'
  = rolesRegexpByNamespace s !! namespace'.
Proof.
  intros Hne. rewrite final_RemoveRoleFromNamespace. simpl.
  by rewrite lookup_insert_ne.
Qed.

Lemma patterns_other_namespace s s' namespace' :
  rolesRegexpByNamespace s' !! namespace' = rolesRegexpByNamespace s !! namespace' →
  patterns s' namespace' = patterns s namespace'.
Proof. unfold patterns. by intros ->. Qed.

Lemma set_insert_commute s namespace1 namespace2 ar1 ar2 :
  namespace1 ≠ namespace2 →
  set_rolesRegexpByNamespace (insert namespace1 ar1)
    (set_rolesRegexpByNamespace (insert namespace2 ar2) s)
  = set_rolesRegexpByNamespace (insert namespace2 ar2)
      (set_rolesRegexpByNamespace (insert namespace1 ar1) s).
Proof.
  intros Hne. apply Store_eq; simpl; try done. by apply insert_insert_ne.
Qed.

(** X6. The policy methods touch the policy map only, and only at their
    namespace: [AddRoleToNamespace] and [RemoveRoleFromNamespace] leave both
    IP maps, the settings and the entry of every other namespace as they
    were, so [Get] answers as before. *)
Theorem policy_methods_frame s namespace regexpForRole ip :
  (rolesByIP (final (AddRoleToNamespace namespace regexpForRole) s) = rolesByIP s
   ∧ namespaceByIP (final (AddRoleToNamespace namespace regexpForRole) s)
     = namespaceByIP s
   ∧ settings (final (AddRoleToNamespace namespace regexpForRole) s) = settings s
   ∧ (∀ namespace', namespace' ≠ namespace →
        rolesRegexpByNamespace
          (final (AddRoleToNamespace namespace regexpForRole) s) !! namespace'
        = rolesRegexpByNamespace s !! namespace')
   ∧ result (Get ip) (final (AddRoleToNamespace namespace regexpForRole) s)
     = result (Get ip) s)
  ∧ (rolesByIP (final (RemoveRoleFromNamespace namespace regexpForRole) s)
     = rolesByIP s
     ∧ namespaceByIP (final (RemoveRoleFromNamespace namespace regexpForRole) s)
       = namespaceByIP s
     ∧ settings (final (RemoveRoleFromNamespace namespace regexpForRole) s)
       = settings s
     ∧ (∀ namespace', namespace' ≠ namespace →
          rolesRegexpByNamespace
            (final (RemoveRoleFromNamespace namespace regexpForRole) s)
            !! namespace'
          = rolesRegexpByNamespace s !! namespace')
     ∧ result (Get ip) (final (RemoveRoleFromNamespace namespace regexpForRole) s)
       = result (Get ip) s).
Proof.
  destruct (AddRoleToNamespace_other_fields s namespace regexpForRole)
    as (Hr & Hn & Hs).
  split; split_and!; try done.
  - intros ns' Hne. by apply AddRoleToNamespace_other_namespace.
  - rewrite !result_Get, Hr. unfold settings in Hs.
    by assert (defaultRole (final (AddRoleToNamespace namespace regexpForRole) s)
               = defaultRole s) as -> by congruence.
  - intros ns' Hne. by apply RemoveRoleFromNamespace_other_namespace.
  - by rewrite !result_Get.
Qed.

(** X7. [DumpRolesByNamespace] has one key per namespace of the policy map and
    no other; the list under a namespace holding [n] patterns has [2 * n]
    elements: [n] empty strings, then the canonical strings of the patterns
    in slice order. *)
Theorem DumpRolesByNamespace_shape s namespace :
  (result DumpRolesByNamespace s !! namespace = None ↔
     rolesRegexpByNamespace s !! namespace = None)
  ∧ (∀ ar, rolesRegexpByNamespace s !! namespace = Some ar →
       ∃ listOfRoles,
         result DumpRolesByNamespace s !! namespace = Some listOfRoles
         ∧ length listOfRoles = 2 * length ar
         ∧ take (length ar) listOfRoles = replicate (length ar) ""
         ∧ drop (length ar) listOfRoles = Regexp_String <$> ar).
Proof.
  rewrite DumpRolesByNamespace_contents. split.
  - by rewrite fmap_None.
  - intros ar ->. simpl. eexists. split; [done|].
    split_and!.
    + rewrite length_app, length_replicate, length_fmap. lia.
    + rewrite take_app_length'; [done|]. by rewrite length_replicate.
    + rewrite drop_app_length'; [done|]. by rewrite length_replicate.
Qed.

(** X8. A pod that appears and goes leaves no trace: when its IP is in neither
    IP map, recording its role and namespace and then deleting the IP gives
    back the store as it was. *)
Theorem DeleteIP_undoes_pod s pod role :
  rolesByIP s !! PodIP (Status pod) = None →
  namespaceByIP s !! PodIP (Status pod) = None →
  final (DeleteIP (PodIP (Status pod)))
    (final (AddNamespaceToIP pod) (final (AddRoleToIP pod role) s))
  = s.
Proof.
  intros Hr Hn.
  rewrite final_DeleteIP, final_AddNamespaceToIP, final_AddRoleToIP.
  apply Store_eq; simpl; try done; by apply delete_insert_id.
Qed.

(** X9. Recording commutes where it cannot clash: [AddRoleToIP] and
    [AddNamespaceToIP] can run in either order, also for the same pod, and two
    [AddRoleToIP] (or two [AddNamespaceToIP]) for pods with different IPs can
    run in either order; for the same IP the later call wins. *)
Theorem recording_commutes s pod1 pod2 role1 role2 :
  final (AddNamespaceToIP pod2) (final (AddRoleToIP pod1 role1) s)
  = final (AddRoleToIP pod1 role1) (final (AddNamespaceToIP pod2) s)
  ∧ (PodIP (Status pod1) ≠ PodIP (Status pod2) →
       final (AddRoleToIP pod1 role1) (final (AddRoleToIP pod2 role2) s)
       = final (AddRoleToIP pod2 role2) (final (AddRoleToIP pod1 role1) s)
       ∧ final (AddNamespaceToIP pod1) (final (AddNamespaceToIP pod2) s)
         = final (AddNamespaceToIP pod2) (final (AddNamespaceToIP pod1) s))
  ∧ (PodIP (Status pod1) = PodIP (Status pod2) →
       final (AddRoleToIP pod1 role1) (final (AddRoleToIP pod2 role2) s)
       = final (AddRoleToIP pod1 role1) s).
Proof.
  rewrite !final_AddRoleToIP, !final_AddNamespaceToIP. split_and!.
  - done.
  - intros Hne. split; apply Store_eq; simpl; try done; by apply insert_insert_ne.
  - intros Heq. apply Store_eq; simpl; try done.
    rewrite Heq. apply insert_insert_eq.
Qed.

(** X10. On every store built from [NewStore] by the methods, no namespace
    holds the same canonical pattern string twice, and every pattern held is
    the one [Compile] gives for its string. *)
Theorem reachable_no_duplicate_pattern s namespace :
  reachable s →
  NoDup (patternStrings s namespace)
  ∧ Forall (λ r, Compile (Regexp_String r) = Some r) (patterns s namespace).
Proof.
  intros Hreach. apply (patterns_ok_slice s namespace).
  by apply reachable_patterns_ok.
Qed.

End policy_extras.

Section policy_composition.
Context `{IamClient, RegexpPackage}.
Implicit Types (s : Store) (ar : list Regexp) (ip role namespace regexpForRole : string).

Lemma RemoveRoleFromNamespace_same_namespace s namespace regexpForRole :
  patterns (final (RemoveRoleFromNamespace namespace regexpForRole) s) namespace
    `sublist_of` patterns s namespace
  ∧ length (patterns s namespace)
    ≤ S (length (patterns (final (RemoveRoleFromNamespace namespace regexpForRole) s)
                   namespace)).
Proof.
  rewrite final_RemoveRoleFromNamespace, patterns_insert.
  destruct (indexOfString _ _) as [i|].
  - split; [apply removeAt_sublist|apply removeAt_length].
  - split; [done|lia].
Qed.

(** X11. A grant only appends and a revocation only drops: for every
    namespace, the slice before [AddRoleToNamespace] is a prefix of the slice
    after it, which is at most one pattern longer; the slice after
    [RemoveRoleFromNamespace] is a sublist of the slice before it (same
    patterns, same order) and at most one pattern shorter. *)
Theorem policy_slices_grow_and_shrink_by_one s namespace regexpForRole namespace' :
  (patterns s namespace'
     `prefix_of` patterns (final (AddRoleToNamespace namespace regexpForRole) s)
                   namespace'
   ∧ length (patterns (final (AddRoleToNamespace namespace regexpForRole) s)
               namespace')
     ≤ S (length (patterns s namespace')))
  ∧ (patterns (final (RemoveRoleFromNamespace namespace regexpForRole) s) namespace'
       `sublist_of` patterns s namespace'
     ∧ length (patterns s namespace')
       ≤ S (length (patterns
                      (final (RemoveRoleFromNamespace namespace regexpForRole) s)
                      namespace'))).
Proof.
  destruct (decide (namespace' = namespace)) as [->|Hne].
  - split.
    + destruct (AddRoleToNamespace_same_namespace s namespace regexpForRole)
        as (suffix & -> & Hlen).
      split; [by exists suffix|]. rewrite length_app. lia.
    + apply RemoveRoleFromNamespace_same_namespace.
  - rewrite (patterns_other_namespace s _ namespace'
               (AddRoleToNamespace_other_namespace s namespace regexpForRole
                  namespace' Hne)).
    rewrite (patterns_other_namespace s _ namespace'
               (RemoveRoleFromNamespace_other_namespace s namespace regexpForRole
                  namespace' Hne)).
    split; (split; [done|lia]).
Qed.

(** X12. A grant never takes a permission away and a revocation never gives
    one: whatever [checkRoleForNamespace] accepts before
    [AddRoleToNamespace] it accepts after it, and whatever it accepts after
    [RemoveRoleFromNamespace] it accepted before, in every namespace. *)
Theorem grants_and_revocations_are_monotone s namespace regexpForRole role namespace' :
  (result (checkRoleForNamespace role namespace') s = true →
     result (checkRoleForNamespace role namespace')
       (final (AddRoleToNamespace namespace regexpForRole) s) = true)
  ∧ (result (checkRoleForNamespace role namespace')
       (final (RemoveRoleFromNamespace namespace regexpForRole) s) = true →
     result (checkRoleForNamespace role namespace') s = true).
Proof.
  rewrite !result_checkRoleForNamespace. split.
  - intros (r & Hin & Hr). exists r. split; [|done].
    destruct (decide (namespace' = namespace)) as [->|Hne].
    + destruct (AddRoleToNamespace_same_namespace s namespace regexpForRole)
        as (suffix & -> & _).
      apply elem_of_app. by left.
    + by rewrite (patterns_other_namespace s _ namespace'
                    (AddRoleToNamespace_other_namespace s namespace regexpForRole
                       namespace' Hne)).
  - intros (r & Hin & Hr). exists r. split; [|done].
    destruct (decide (namespace' = namespace)) as [->|Hne].
    + eapply elem_of_sublist; [done|].
      apply RemoveRoleFromNamespace_same_namespace.
    + by rewrite (patterns_other_namespace s _ namespace'
                    (RemoveRoleFromNamespace_other_namespace s namespace
                       regexpForRole namespace' Hne)) in Hin.
Qed.

(** X13. A grant takes effect: on a store built by the methods, once
    [AddRoleToNamespace] was given a pattern whose normalized string compiles
    to an expression matching [role], [checkRoleForNamespace] accepts [role]
    in that namespace, and [CheckNamespaceRestriction] permits it for every IP
    recorded in that namespace. *)
Theorem grant_takes_effect s namespace regexpForRole re role ip :
  reachable s →
  Compile (RoleARN (iam s) regexpForRole) = Some re →
  MatchString re role = true →
  result (checkRoleForNamespace role namespace)
    (final (AddRoleToNamespace namespace regexpForRole) s) = true
  ∧ (namespaceByIP s !! ip = Some namespace →
       result (CheckNamespaceRestriction role ip)
         (final (AddRoleToNamespace namespace regexpForRole) s)
       = (true, namespace)).
Proof.
  intros Hreach Hre Hm.
  assert (result (checkRoleForNamespace role namespace)
            (final (AddRoleToNamespace namespace regexpForRole) s) = true) as Hok.
  { apply result_checkRoleForNamespace. exists re. split; [|done].
    destruct (decide (RoleARN (iam s) regexpForRole ∈ patternStrings s namespace))
      as [Hin|Hout].
    - rewrite (AddRoleToNamespace_present s namespace regexpForRole Hin).
      apply list_elem_of_fmap in Hin as (r & Hx & Hr).
      destruct (patterns_ok_slice s namespace (reachable_patterns_ok s Hreach))
        as [_ Hcomp].
      rewrite Forall_forall in Hcomp. specialize (Hcomp r Hr).
      rewrite <-Hx, Hre in Hcomp. by simplify_eq.
    - rewrite (AddRoleToNamespace_appends s namespace regexpForRole re Hout Hre).
      apply elem_of_app. right. by left. }
  split; [done|]. intros Hns.
  rewrite result_CheckNamespaceRestriction.
  destruct (AddRoleToNamespace_other_fields s namespace regexpForRole)
    as (_ & -> & _).
  rewrite Hns. simpl. rewrite Hok. by rewrite orb_true_r.
Qed.

(** X14. Revoking right after granting undoes the grant: when the normalized
    string is not yet in the namespace's slice, [AddRoleToNamespace] followed by
    [RemoveRoleFromNamespace] with the same arguments leaves the slice as it
    was, and the whole store as it was when the namespace already had an
    entry. *)
Theorem RemoveRoleFromNamespace_undoes_grant s namespace regexpForRole :
  RoleARN (iam s) regexpForRole ∉ patternStrings s namespace →
  patterns
    (final (RemoveRoleFromNamespace namespace regexpForRole)
       (final (AddRoleToNamespace namespace regexpForRole) s)) namespace
  = patterns s namespace
  ∧ (is_Some (rolesRegexpByNamespace s !! namespace) →
       final (RemoveRoleFromNamespace namespace regexpForRole)
         (final (AddRoleToNamespace namespace regexpForRole) s)
       = s).
Proof.
  intros Hout.
  rewrite final_RemoveRoleFromNamespace, AddRoleToNamespace_iam, patterns_insert.
  destruct (Compile (RoleARN (iam s) regexpForRole)) as [re|] eqn:Hre.
  - rewrite (AddRoleToNamespace_appends s namespace regexpForRole re Hout Hre).
    pose proof (Compile_String _ _ Hre) as Hstr.
    destruct (indexOfString_first (patterns s namespace) re []
                (RoleARN (iam s) regexpForRole) Hstr Hout) as [-> ->].
    rewrite app_nil_r. split; [done|].
    intros [ar Har]. rewrite final_AddRoleToNamespace. simpl.
    rewrite (proj2 (containsString_false _ _) Hout), Hre.
    apply Store_eq; simpl; try done.
    rewrite insert_insert_eq. apply insert_id.
    unfold patterns. by rewrite Har.
  - assert (final (AddRoleToNamespace namespace regexpForRole) s = s) as ->.
    { rewrite final_AddRoleToNamespace. simpl.
      by rewrite (proj2 (containsString_false _ _) Hout), Hre. }
    rewrite (proj2 (indexOfString_None _ _) Hout). split; [done|].
    intros [ar Har]. apply write_back. unfold patterns. by rewrite Har.
Qed.

(** X15. A revocation is complete and idempotent on a store built by the
    methods: after [RemoveRoleFromNamespace] the normalized string is in the
    namespace's slice no more, and a second call with the same arguments
    changes nothing. *)
Theorem RemoveRoleFromNamespace_complete s namespace regexpForRole :
  reachable s →
  (RoleARN (iam s) regexpForRole
     ∉ patternStrings (final (RemoveRoleFromNamespace namespace regexpForRole) s)
         namespace)
  ∧ final (RemoveRoleFromNamespace namespace regexpForRole)
      (final (RemoveRoleFromNamespace namespace regexpForRole) s)
    = final (RemoveRoleFromNamespace namespace regexpForRole) s.
Proof.
  intros Hreach.
  destruct (patterns_ok_slice s namespace (reachable_patterns_ok s Hreach))
    as [Hnd _].
  set (x := RoleARN (iam s) regexpForRole).
  assert (x ∉ patternStrings
                (final (RemoveRoleFromNamespace namespace regexpForRole) s)
                namespace) as Hgone.
  { unfold patternStrings.
    rewrite final_RemoveRoleFromNamespace, patterns_insert. fold x.
    destruct (indexOfString (patterns s namespace) x) as [i|] eqn:Hi.
    - apply indexOfString_Some in Hi as (l1 & r & l2 & Hp & <- & Hr & Hl1).
      rewrite Hp in *.
      rewrite (proj2 (indexOfString_first l1 r l2 x Hr Hl1)).
      rewrite fmap_app, fmap_cons, Hr in Hnd.
      apply NoDup_app in Hnd as (_ & _ & [Hl2 _]%NoDup_cons).
      rewrite fmap_app. intros [?|?]%elem_of_app; done.
    - by apply indexOfString_None. }
  split; [done|].
  rewrite (final_RemoveRoleFromNamespace
             (final (RemoveRoleFromNamespace namespace regexpForRole) s)).
  assert (iam (final (RemoveRoleFromNamespace namespace regexpForRole) s) = iam s)
    as -> by done.
  fold x. rewrite (proj2 (indexOfString_None _ _) Hgone).
  apply write_back.
  rewrite !final_RemoveRoleFromNamespace, patterns_insert. simpl.
  by rewrite lookup_insert_eq.
Qed.

(** X16. Grants to different namespaces do not interfere: two
    [AddRoleToNamespace] calls for different namespaces give the same store in
    either order. *)
Theorem AddRoleToNamespace_commutes s namespace1 regexpForRole1 namespace2 regexpForRole2 :
  namespace1 ≠ namespace2 →
  final (AddRoleToNamespace namespace1 regexpForRole1)
    (final (AddRoleToNamespace namespace2 regexpForRole2) s)
  = final (AddRoleToNamespace namespace2 regexpForRole2)
      (final (AddRoleToNamespace namespace1 regexpForRole1) s).
Proof.
  intros Hne.
  rewrite (final_AddRoleToNamespace
             (final (AddRoleToNamespace namespace2 regexpForRole2) s)).
  rewrite (final_AddRoleToNamespace
             (final (AddRoleToNamespace namespace1 regexpForRole1) s)).
  simpl. rewrite !AddRoleToNamespace_iam.
  rewrite (patterns_other_namespace s _ namespace1
             (AddRoleToNamespace_other_namespace s namespace2 regexpForRole2
                namespace1 Hne)).
  rewrite (patterns_other_namespace s _ namespace2
             (AddRoleToNamespace_other_namespace s namespace1 regexpForRole1
                namespace2 (not_eq_sym Hne))).
  rewrite !final_AddRoleToNamespace. simpl.
  destruct (containsString (patterns s namespace1) _);
    destruct (containsString (patterns s namespace2) _);
    destruct (Compile (RoleARN (iam s) regexpForRole1));
    destruct (Compile (RoleARN (iam s) regexpForRole2));
    try done; by apply set_insert_commute.
Qed.

(** X17. The early outs of [CheckNamespaceRestriction] stop before the policy
    map: with the restriction off, or for the normalized default role, the
    method reads [namespaceByIP] once and nothing else, and logs nothing.
    Otherwise it reads the policy map once and logs exactly one line: a
    warning when it refuses, a debug line when it permits. *)
Theorem CheckNamespaceRestriction_early_outs s role ip :
  (namespaceRestriction s = false
   ∨ role = RoleARN (iam s) (defaultRole s) →
     trace (CheckNamespaceRestriction role ip) s = [EvRead M_namespaceByIP])
  ∧ (namespaceRestriction s = true → role ≠ RoleARN (iam s) (defaultRole s) →
     ∃ line,
       trace (CheckNamespaceRestriction role ip) s
       = [EvRead M_namespaceByIP; EvRead M_rolesRegexpByNamespace; line]
       ∧ ((result (CheckNamespaceRestriction role ip) s).1 = false →
            line = EvWarnf ("Role:" +:+ role +:+ " on namespace:" +:+
                            default "" (namespaceByIP s !! ip) +:+ " not found."))
       ∧ ((result (CheckNamespaceRestriction role ip) s).1 = true →
            ∃ msg, line = EvDebugf msg)).
Proof.
  split.
  - intros [Hoff|Hrole]; run_op.
    + by rewrite Hoff.
    + destruct (namespaceRestriction s); simpl; [|done].
      by rewrite bool_decide_eq_true_2.
  - intros Hon Hrole. run_op. rewrite Hon. simpl.
    rewrite bool_decide_eq_false_2 by done. simpl.
    destruct (firstMatch _ _); simpl.
    + eexists. split_and!; [done|done|]. intros _. by eexists.
    + eexists. by split_and!.
Qed.

End policy_composition.

(** * The store at work on the example instance *)
Module checks.
Import fragment examples.

(** *** The regular-expression fragment *)

Example compile_open_group : Compile "(" = None.
Proof. reflexivity. Qed.

Example compile_nested_repetition : Compile "a**" = None.
Proof. reflexivity. Qed.

Example match_is_unanchored :
  (flip MatchString "xabbbcd" <$> Compile "b+c") = Some true
  ∧ (flip MatchString "xacd" <$> Compile "b+c") = Some false
  ∧ (flip MatchString "ad" <$> Compile "a(b|c)*d") = Some true.
Proof. by vm_compute. Qed.

(** *** The scenario: restriction on, [payments] granted [payments-.*],
    10.0.0.1 recorded with the writer role in [payments]. *)

Example scenario_Get :
  result (Get "10.0.0.1") (scenario storeD) = (writer, None).
Proof. by vm_compute. Qed.

Example scenario_writer_permitted :
  result (CheckNamespaceRestriction writer "10.0.0.1") (scenario storeD)
  = (true, "payments").
Proof. by vm_compute. Qed.

Example scenario_other_team_refused :
  result (CheckNamespaceRestriction otherTeam "10.0.0.1") (scenario storeD)
  = (false, "payments").
Proof. by vm_compute. Qed.

Example scenario_default_exempt :
  result (CheckNamespaceRestriction "arn:aws:iam::123456789012:role/default"
            "10.0.0.1") (scenario storeD)
  = (true, "payments").
Proof. by vm_compute. Qed.

Example scenario_unknown_address :
  result (CheckNamespaceRestriction writer "10.0.0.9") (scenario storeD)
  = (false, "").
Proof. by vm_compute. Qed.

Example scenario_forget_with_default :
  Get "10.0.0.1" (final (DeleteIP "10.0.0.1") (scenario storeD))
  = (("default", None), final (DeleteIP "10.0.0.1") (scenario storeD),
     [EvRLock; EvRead M_rolesByIP;
      EvWarnf "Using fallback role for IP 10.0.0.1"; EvRUnlock]).
Proof. by vm_compute. Qed.

Example scenario_forget_without_default :
  result (Get "10.0.0.1") (final (DeleteIP "10.0.0.1") (scenario store0))
  = ("", Some (Errorf "Unable to find role for IP 10.0.0.1")).
Proof. by vm_compute. Qed.

Example scenario_reachable : reachable (scenario store0).
Proof. repeat constructor. Qed.

(** *** C5 *)

(** C5 at a concrete store: granting [payments-.*] twice to a new store. *)
Lemma AddRoleToNamespace_twice_witness :
  reachable store0
  ∧ (final (AddRoleToNamespace "payments" "payments-.*")
       (final (AddRoleToNamespace "payments" "payments-.*") store0)
     = final (AddRoleToNamespace "payments" "payments-.*") store0
     ∧ (RoleARN (iam store0) "payments-.*" ∈ patternStrings store0 "payments" →
          final (AddRoleToNamespace "payments" "payments-.*") store0 = store0)
     ∧ occurrences (RoleARN (iam store0) "payments-.*")
         (patternStrings
            (final (AddRoleToNamespace "payments" "payments-.*") store0)
            "payments")
       = match Compile (RoleARN (iam store0) "payments-.*") with
         | Some _ => 1
         | None => 0
         end
     ∧ (Compile (RoleARN (iam store0) "payments-.*") = None →
          final (AddRoleToNamespace "payments" "payments-.*") store0 = store0)).
Proof.
  split.
  - apply reachable_NewStore.
  - apply (AddRoleToNamespace_twice store0 "payments" "payments-.*").
    apply reachable_NewStore.
Defined.

(** C5 as stated fails for a pattern that does not compile: after granting
    [(] twice, the slice of [payments] holds no entry for it, not one. *)
Lemma AddRoleToNamespace_twice_malformed :
  Compile (RoleARN (iam store0) "(") = None
  ∧ occurrences (RoleARN (iam store0) "(")
      (patternStrings
         (final (AddRoleToNamespace "payments" "(")
            (final (AddRoleToNamespace "payments" "(") store0))
         "payments")
    = 0
  ∧ ¬ (occurrences (RoleARN (iam store0) "(")
         (patternStrings
            (final (AddRoleToNamespace "payments" "(")
               (final (AddRoleToNamespace "payments" "(") store0))
            "payments")
       = 1).
Proof. by vm_compute. Qed.

(** *** C6 *)

(** C6 at a concrete store: granting [(] to a new store. *)
Lemma AddRoleToNamespace_invalid_regexp_witness :
  Compile (RoleARN (iam store0) "(") = None
  ∧ final (AddRoleToNamespace "payments" "(") store0 = store0
  ∧ (RoleARN (iam store0) "(" ∉ patternStrings store0 "payments" →
       trace (AddRoleToNamespace "payments" "(") store0
       = [EvRead M_rolesRegexpByNamespace;
          EvDebugf ("Invalid regexp " +:+ RoleARN (iam store0) "(" +:+
                    "  described on namespace:" +:+ "payments" +:+ " found.")]).
Proof.
  split.
  - reflexivity.
  - apply (AddRoleToNamespace_invalid_regexp store0 "payments" "(").
    reflexivity.
Defined.

Example invalid_regexp_keeps_granted_store :
  final (AddRoleToNamespace "payments" "(") (granted store0) = granted store0
  ∧ rolesRegexpByNamespace (final (AddRoleToNamespace "audit" "(") (granted store0))
      !! "audit" = None.
Proof. by vm_compute. Qed.

(** *** C7 *)

(** C7 as stated fails for a namespace without an entry: revoking from it
    is not a no-op, the policy map gains an entry for the namespace. *)
Lemma RemoveRoleFromNamespace_creates_entry :
  rolesRegexpByNamespace store0 !! "payments" = None
  ∧ rolesRegexpByNamespace
      (final (RemoveRoleFromNamespace "payments" "payments-.*") store0)
      !! "payments" = Some []
  ∧ final (RemoveRoleFromNamespace "payments" "payments-.*") store0 ≠ store0.
Proof.
  split_and!; [by vm_compute|by vm_compute|].
  intros Heq.
  apply (f_equal (λ s, rolesRegexpByNamespace s !! "payments")) in Heq.
  by vm_compute in Heq.
Qed.

(** The entry shows in the dump. *)
Example RemoveRoleFromNamespace_shows_in_dump :
  result DumpRolesByNamespace store0 !! "payments" = None
  ∧ result DumpRolesByNamespace
      (final (RemoveRoleFromNamespace "payments" "payments-.*") store0)
      !! "payments" = Some [].
Proof. by vm_compute. Qed.

Example RemoveRoleFromNamespace_removes_first :
  patternStrings
    (final (RemoveRoleFromNamespace "payments" "payments-.*")
       (final (AddRoleToNamespace "payments" "audit-.*") (granted store0)))
    "payments"
  = ["arn:aws:iam::123456789012:role/audit-.*"].
Proof. by vm_compute. Qed.

(** *** C8 *)

(** C8 on the code: the dump of a namespace holding one pattern has two
    elements, an empty string and then the pattern's string; the other two
    dumps give the maps' contents. *)
Theorem DumpRolesByNamespace_leading_empty_strings :
  patternStrings (granted store0) "payments"
  = ["arn:aws:iam::123456789012:role/payments-.*"]
  ∧ result DumpRolesByNamespace (granted store0) !! "payments"
    = Some [""; "arn:aws:iam::123456789012:role/payments-.*"]
  ∧ result DumpRolesByNamespace (granted store0) !! "payments"
    ≠ Some (patternStrings (granted store0) "payments")
  ∧ result DumpRolesByIP (scenario store0) = rolesByIP (scenario store0)
  ∧ result DumpNamespaceByIP (scenario store0) = namespaceByIP (scenario store0).
Proof.
  split_and!; [by vm_compute|by vm_compute| |done|done].
  intros Heq. by vm_compute in Heq.
Qed.

(** *** C9 *)

Example CheckNamespaceRestriction_trace :
  trace (CheckNamespaceRestriction writer "10.0.0.1") (scenario store0)
  = [EvRead M_namespaceByIP; EvRead M_rolesRegexpByNamespace;
     EvDebugf ("Role:arn:aws:iam::123456789012:role/payments-writer" +:+
               " matching regexp arn:aws:iam::123456789012:role/payments-.*" +:+
               " on namespace:payments found.")].
Proof. by vm_compute. Qed.

End checks.

(** * The further properties on the example instance *)
Module extra_checks.
Import fragment examples.

Definition podB : Pod :=
  {| Namespace := "audit"; Status := {| PodIP := "10.0.0.2" |} |}.

Definition auditReader : string := "arn:aws:iam::123456789012:role/audit-reader".

(** The expression [compile] gives for [e] ([OpNoMatch] where it gives none). *)
Definition compiled (e : string) : Compiled :=
  default (mkCompiled e OpNoMatch) (compile e).

(** X8 at a concrete store: the pod at 10.0.0.2 appears in the scenario and
    goes. *)
Lemma DeleteIP_undoes_pod_witness :
  rolesByIP (scenario store0) !! PodIP (Status podB) = None
  ∧ namespaceByIP (scenario store0) !! PodIP (Status podB) = None
  ∧ final (DeleteIP (PodIP (Status podB)))
      (final (AddNamespaceToIP podB)
         (final (AddRoleToIP podB auditReader) (scenario store0)))
    = scenario store0.
Proof.
  split_and!.
  - vm_compute. reflexivity.
  - vm_compute. reflexivity.
  - apply (DeleteIP_undoes_pod (scenario store0) podB auditReader).
    + vm_compute. reflexivity.
    + vm_compute. reflexivity.
Defined.

(** X10 at a concrete store: the scenario after a second grant. *)
Lemma reachable_no_duplicate_pattern_witness :
  reachable (final (AddRoleToNamespace "payments" "audit-.*") (scenario store0))
  ∧ NoDup (patternStrings
             (final (AddRoleToNamespace "payments" "audit-.*") (scenario store0))
             "payments")
  ∧ Forall (λ r, Compile (Regexp_String r) = Some r)
      (patterns
         (final (AddRoleToNamespace "payments" "audit-.*") (scenario store0))
         "payments").
Proof.
  split.
  - repeat constructor.
  - apply (reachable_no_duplicate_pattern
             (final (AddRoleToNamespace "payments" "audit-.*") (scenario store0))
             "payments").
    repeat constructor.
Defined.

(** X13 at a concrete store: [payments] is granted [audit-.*] in the
    scenario, and the audit reader role is asked about for 10.0.0.1. *)
Lemma grant_takes_effect_witness :
  reachable (scenario store0)
  ∧ Compile (RoleARN (iam (scenario store0)) "audit-.*")
    = Some (compiled "arn:aws:iam::123456789012:role/audit-.*")
  ∧ MatchString (compiled "arn:aws:iam::123456789012:role/audit-.*") auditReader
    = true
  ∧ result (checkRoleForNamespace auditReader "payments")
      (final (AddRoleToNamespace "payments" "audit-.*") (scenario store0)) = true
  ∧ (namespaceByIP (scenario store0) !! "10.0.0.1" = Some "payments" →
       result (CheckNamespaceRestriction auditReader "10.0.0.1")
         (final (AddRoleToNamespace "payments" "audit-.*") (scenario store0))
       = (true, "payments")).
Proof.
  split; [|split; [|split]].
  - repeat constructor.
  - vm_compute. reflexivity.
  - vm_compute. reflexivity.
  - apply (grant_takes_effect (scenario store0) "payments" "audit-.*"
             (compiled "arn:aws:iam::123456789012:role/audit-.*") auditReader
             "10.0.0.1").
    + repeat constructor.
    + vm_compute. reflexivity.
    + vm_compute. reflexivity.
Defined.

Example refused_before_the_grant :
  result (CheckNamespaceRestriction auditReader "10.0.0.1") (scenario store0)
  = (false, "payments").
Proof. by vm_compute. Qed.

(** X14 at a concrete store: [audit-.*] granted to [payments] in the scenario
    and revoked at once. *)
Lemma RemoveRoleFromNamespace_undoes_grant_witness :
  (RoleARN (iam (scenario store0)) "audit-.*"
     ∉ patternStrings (scenario store0) "payments")
  ∧ patterns
      (final (RemoveRoleFromNamespace "payments" "audit-.*")
         (final (AddRoleToNamespace "payments" "audit-.*") (scenario store0)))
      "payments"
    = patterns (scenario store0) "payments"
  ∧ (is_Some (rolesRegexpByNamespace (scenario store0) !! "payments") →
       final (RemoveRoleFromNamespace "payments" "audit-.*")
         (final (AddRoleToNamespace "payments" "audit-.*") (scenario store0))
       = scenario store0).
Proof.
  assert (RoleARN (iam (scenario store0)) "audit-.*"
            ∉ patternStrings (scenario store0) "payments") as Hout.
  { vm_compute. intros Hin.
    apply elem_of_cons in Hin as [Heq|Hin]; [discriminate Heq|].
    by apply elem_of_nil in Hin. }
  split; [exact Hout|].
  apply (RemoveRoleFromNamespace_undoes_grant (scenario store0) "payments"
           "audit-.*" Hout).
Defined.

(** X15 at a concrete store: the scenario's grant is revoked. *)
Lemma RemoveRoleFromNamespace_complete_witness :
  reachable (scenario store0)
  ∧ (RoleARN (iam (scenario store0)) "payments-.*"
       ∉ patternStrings
           (final (RemoveRoleFromNamespace "payments" "payments-.*")
              (scenario store0)) "payments")
  ∧ final (RemoveRoleFromNamespace "payments" "payments-.*")
      (final (RemoveRoleFromNamespace "payments" "payments-.*") (scenario store0))
    = final (RemoveRoleFromNamespace "payments" "payments-.*") (scenario store0).
Proof.
  split.
  - repeat constructor.
  - apply (RemoveRoleFromNamespace_complete (scenario store0) "payments"
             "payments-.*").
    repeat constructor.
Defined.

Example revoked_role_is_refused :
  result (CheckNamespaceRestriction writer "10.0.0.1")
    (final (RemoveRoleFromNamespace "payments" "payments-.*") (scenario store0))
  = (false, "payments").
Proof. by vm_compute. Qed.

(** X16 at a concrete store: grants to [payments] and to [audit]. *)
Lemma AddRoleToNamespace_commutes_witness :
  "payments" ≠ "audit"
  ∧ final (AddRoleToNamespace "payments" "payments-.*")
      (final (AddRoleToNamespace "audit" "audit-.*") store0)
    = final (AddRoleToNamespace "audit" "audit-.*")
        (final (AddRoleToNamespace "payments" "payments-.*") store0).
Proof.
  split.
  - discriminate.
  - apply (AddRoleToNamespace_commutes store0 "payments" "payments-.*" "audit"
             "audit-.*").
    discriminate.
Defined.

(** The same namespace: the order of two grants shows in the slice. *)
Example grants_to_one_namespace_keep_their_order :
  patternStrings
    (final (AddRoleToNamespace "payments" "audit-.*") (granted store0)) "payments"
  = ["arn:aws:iam::123456789012:role/payments-.*";
     "arn:aws:iam::123456789012:role/audit-.*"].
Proof. by vm_compute. Qed.

End extra_checks.
